(** * The Warp Messenger stateful precompile

    A shallow embedding of [precompile/warp_messenger.go]: the upgrade
    config and its equality, the predicate that admits signed warp messages
    before execution, and the three gas-metered handlers
    ([getBlockchainId], [getVerifiedWarpMessage], [sendWarpMessage]).

    Conventions.
    - A [uint64] is a [Z]; where Go arithmetic wraps, the [mod 2^64] is
      written out.
    - A [[]byte] is a [list byte]; a fixed array [[n]byte] is a
      [Vector.t byte n], so that a 32-byte identifier cannot have another
      length.
    - A Go function returning [(T, error)] returns a sum [T + error]; a
      function returning several values and an error returns a tuple whose
      last component is an [option error].
    - A run-time panic (an index out of range) is the outcome [Panics],
      kept apart from a returned error.
    - Libraries outside the repository (RLP, ABI, the teleporter message
      parser, aggregate signature verification) are parameters of the
      section that holds the handlers. *)

From Stdlib Require Import ZArith NArith List String Ascii Bool Lia.
From Stdlib.Strings Require Import Byte.
Set Warnings "-stdlib-vector".
From Stdlib Require Vector.
Import ListNotations.

Local Open Scope Z_scope.

(* ===================================================================== *)
(** ** Bytes, fixed arrays and integers *)
(* ===================================================================== *)

Definition bytes := list byte.

(** [common.Hash], [ids.ID] and the [[32]byte] fields of the ABI structs. *)
Definition Hash := Vector.t byte 32.

(** [common.Address]. *)
Definition Address := Vector.t byte 20.

Definition uint64_modulus : Z := 2 ^ 64.

Definition Z_of_byte (b : byte) : Z := Z.of_N (Byte.to_N b).

Definition byte_of_Z (z : Z) : byte :=
  match Byte.of_N (Z.to_N (z mod 256)) with
  | Some b => b
  | None => x00
  end.

(** [big.Int.SetBytes]: the bytes read as a big-endian unsigned integer. *)
Definition SetBytes (bs : bytes) : Z :=
  fold_left (fun acc b => acc * 256 + Z_of_byte b) bs 0.

(** The [n] low-order bytes of [v], most significant first. *)
Fixpoint bigEndian (n : nat) (v : Z) : bytes :=
  match n with
  | O => []
  | S n' => bigEndian n' (v / 256) ++ [byte_of_Z v]
  end.

(** Reads a fixed array off the front of a byte string. *)
Fixpoint takeArray (n : nat) (bs : bytes) : option (Vector.t byte n * bytes) :=
  match n with
  | O => Some (Vector.nil byte, bs)
  | S n' =>
      match bs with
      | [] => None
      | b :: rest =>
          match takeArray n' rest with
          | Some (v, rest') => Some (Vector.cons byte b n' v, rest')
          | None => None
          end
      end
  end.

(** Fills a fixed array from the front of [bs], zero bytes when [bs] runs
    out (Go's [copy] into a zeroed array). *)
Fixpoint fillArray (n : nat) (bs : bytes) : Vector.t byte n :=
  match n with
  | O => Vector.nil byte
  | S n' =>
      match bs with
      | [] => Vector.cons byte x00 n' (fillArray n' [])
      | b :: rest => Vector.cons byte b n' (fillArray n' rest)
      end
  end.

(** [common.BytesToHash]: crops from the left when [b] is longer than 32
    bytes, pads with zeros on the left when it is shorter. *)
Definition BytesToHash (b : bytes) : Hash :=
  let b' := skipn (List.length b - 32) b in
  fillArray 32 (repeat x00 (32 - List.length b') ++ b').

(** [common.Address.Hash]: the address left-padded to 32 bytes. *)
Definition Address_Hash (a : Address) : Hash := BytesToHash (Vector.to_list a).

Definition Hash_eqb (a b : Hash) : bool := VectorEq.eqb byte Byte.eqb a b.

(** [hex.DecodeString] as [common.FromHex] uses it: two digits a byte,
    decoding stops at the first character that is no hex digit. *)
Definition hexDigit (c : ascii) : option Z :=
  let n := Z.of_N (N_of_ascii c) in
  if (48 <=? n) && (n <=? 57) then Some (n - 48)
  else if (97 <=? n) && (n <=? 102) then Some (n - 87)
  else if (65 <=? n) && (n <=? 70) then Some (n - 55)
  else None.

Fixpoint Hex2Bytes (s : string) : bytes :=
  match s with
  | String hi (String lo rest) =>
      match hexDigit hi, hexDigit lo with
      | Some h, Some l => byte_of_Z (16 * h + l) :: Hex2Bytes rest
      | _, _ => []
      end
  | _ => []
  end.

Definition has0xPrefix (s : string) : bool :=
  match s with
  | String "0" (String c _) => orb (Ascii.eqb c "x") (Ascii.eqb c "X")
  | _ => false
  end.

Definition FromHex (s : string) : bytes :=
  let s1 := if has0xPrefix s then String.substring 2 (String.length s - 2) s else s in
  let s2 := if Nat.odd (String.length s1) then String "0" s1 else s1 in
  Hex2Bytes s2.

Definition HexToHash (s : string) : Hash := BytesToHash (FromHex s).

(* ===================================================================== *)
(** ** Errors and outcomes *)
(* ===================================================================== *)

Inductive error : Type :=
| ErrOutOfGas                       (* vmerrs.ErrOutOfGas *)
| ErrWriteProtection                (* vmerrs.ErrWriteProtection *)
| errors_New (msg : string)         (* errors.New(msg) *)
| LibraryError (lib msg : string).  (* an error value made by a library *)

(** What a Go call does: it returns, or the run time panics. *)
Inductive exec (A : Type) : Type :=
| Returns (a : A)
| Panics (msg : string).
Arguments Returns {A} a.
Arguments Panics {A} msg.

(** [l[i]] with Go's bounds check. *)
Definition index {A : Type} (l : list A) (i : Z) : exec A :=
  if (i <? 0) || (Z.of_nat (List.length l) <=? i) then Panics "index out of range"
  else match nth_error l (Z.to_nat i) with
       | Some a => Returns a
       | None => Panics "index out of range"
       end.

(** The three results of a precompile handler. [ret = None] is Go's [nil]
    slice, [Some []] the empty slice [[]byte{}]. *)
Record CallResult : Type := mkCallResult {
  ret : option bytes;
  remainingGas : Z;
  err : option error
}.

(* ===================================================================== *)
(** ** Gas *)
(* ===================================================================== *)

Definition GetBlockchainIdGasCost : Z := 5000.
Definition GetVerifiedWarpMessageGasCost : Z := 100000.
Definition GetVerifiedWarpMessageGasCostPerAggregatedKey : Z := 1000.
Definition SendWarpMessageGasCost : Z := 100000.

Definition WarpQuorumNumerator : Z := 67.
Definition WarpQuorumDenominator : Z := 100.

(** Modelled from the spec: [deductGas] is declared in a file of the
    package that is not at hand. Spec 4.1: [deduct(remaining, cost) ->
    remaining' | OutOfGas], and "for all remainingGas < cost, gas deduction
    fails and returns zero remaining gas, never a negative value". *)
Definition deductGas (suppliedGas requiredGas : Z) : Z * option error :=
  if suppliedGas <? requiredGas then (0, Some ErrOutOfGas)
  else (suppliedGas - requiredGas, None).

(** Multiplication of two [uint64] values. *)
Definition uint64_mul (a b : Z) : Z := (a * b) mod uint64_modulus.

(** [big.Int.IsInt64] and [big.Int.Uint64]. *)
Definition IsInt64 (x : Z) : bool := (- 2 ^ 63 <=? x) && (x <? 2 ^ 63).
Definition Uint64 (x : Z) : Z := x mod uint64_modulus.

(** [set.BitsFromBytes(b).HammingWeight()]: the number of one bits of the
    big-endian integer held in [b]. *)
Fixpoint popcount (p : positive) : Z :=
  match p with
  | xH => 1
  | xO q => popcount q
  | xI q => 1 + popcount q
  end.

Definition BitsFromBytes (b : bytes) : Z := SetBytes b.

Definition HammingWeight (bits : Z) : Z :=
  match bits with
  | Zpos p => popcount p
  | _ => 0
  end.

(* ===================================================================== *)
(** ** Messages *)
(* ===================================================================== *)

(** The ABI struct of the precompile. *)
Record WarpMessage : Type := mkWarpMessage {
  OriginChainId : Hash;
  OriginSenderAddress : Hash;
  DestinationChainId : Hash;
  DestinationAddress : Hash;
  Payload : bytes
}.

Record GetVerifiedWarpMessageOutput : Type := mkGetVerifiedWarpMessageOutput {
  Message : WarpMessage;
  Success : bool
}.

(** The fields are [DestinationChainId], [DestinationAddress] and
    [Payload] in Go; the prefix keeps them apart from the projections of
    [WarpMessage]. *)
Record SendWarpMessageInput : Type := mkSendWarpMessageInput {
  inDestinationChainId : Hash;
  inDestinationAddress : Hash;
  inPayload : bytes
}.

(** [teleporter.UnsignedMessage], [teleporter.Signature] and
    [teleporter.Message] of avalanchego, as far as the precompile reads
    them. [Signature] is an interface there: [BitSetSignature] is the
    implementation the precompile asks for, [OtherSignature] stands for any
    other dynamic type. [teleporter.Message] embeds its unsigned message:
    Go's [message.Payload] is [umPayload (Unsigned message)] here, and its
    [message.Signature] is [MsgSignature message]. *)
Record UnsignedMessage : Type := mkUnsignedMessage {
  SourceChainID : Hash;
  DestinationChainID : Hash;
  umPayload : bytes
}.

Inductive Signature : Type :=
| BitSetSignature (Signers : bytes) (Sig : Vector.t byte 96)
| OtherSignature (raw : bytes).

Record TeleporterMessage : Type := mkTeleporterMessage {
  Unsigned : UnsignedMessage;
  MsgSignature : Signature
}.

(* ===================================================================== *)
(** ** The warp message codec *)
(* ===================================================================== *)

(** A reader consumes a prefix of the input, as avalanchego's packer
    does on [Unpack*]. *)
Definition reader (A : Type) : Type := bytes -> option (A * bytes).

Definition rret {A : Type} (a : A) : reader A := fun bs => Some (a, bs).

Definition rbind {A B : Type} (r : reader A) (k : A -> reader B) : reader B :=
  fun bs => match r bs with
            | Some (a, rest) => k a rest
            | None => None
            end.

Notation "x <- r ;; k" := (rbind r (fun x => k))
  (at level 61, r at next level, right associativity).

Definition UnpackFixed (n : nat) : reader (Vector.t byte n) := takeArray n.

Definition UnpackUint (n : nat) : reader Z :=
  fun bs => if (List.length bs <? n)%nat then None
            else Some (SetBytes (firstn n bs), skipn n bs).

Definition UnpackBytes : reader bytes :=
  len <- UnpackUint 4 ;;
  fun bs => if (List.length bs <? Z.to_nat len)%nat then None
            else Some (firstn (Z.to_nat len) bs, skipn (Z.to_nat len) bs).

(** Modelled from the spec: [Codec] (and its [Marshal] / [Unmarshal]) is
    declared in a file of the package that is not at hand. Spec 2 and 3:
    "versioned binary encode/decode of a cross-chain message envelope
    (origin chain, origin sender, destination chain, destination address,
    payload)", "serialized with an explicit version tag prefix". The layout
    is the linear one: a 2-byte version, the four 32-byte identifiers in
    field order, then the payload behind its 4-byte length; all integers
    big-endian. A payload whose length does not fit the length field cannot
    be marshalled. All five fields are written, as the spec words it; the
    struct declaration in the source gives its fields no codec tag. *)
Definition Codec_Marshal (version : Z) (m : WarpMessage) : bytes + error :=
  if 2 ^ 32 <=? Z.of_nat (List.length (Payload m))
  then inr (LibraryError "codec" "slice length too large")
  else inl (bigEndian 2 version
            ++ Vector.to_list (OriginChainId m)
            ++ Vector.to_list (OriginSenderAddress m)
            ++ Vector.to_list (DestinationChainId m)
            ++ Vector.to_list (DestinationAddress m)
            ++ bigEndian 4 (Z.of_nat (List.length (Payload m)))
            ++ Payload m).

Definition readWarpMessage : reader (Z * WarpMessage) :=
  version <- UnpackUint 2 ;;
  origin <- UnpackFixed 32 ;;
  sender <- UnpackFixed 32 ;;
  destination <- UnpackFixed 32 ;;
  address <- UnpackFixed 32 ;;
  payload <- UnpackBytes ;;
  rret (version, mkWarpMessage origin sender destination address payload).

(** Modelled from the spec: see [Codec_Marshal]. Go's [Unmarshal] returns
    the version it read and fills the destination; bytes left over after
    the message are an error. *)
Definition Codec_Unmarshal (b : bytes) : (Z * WarpMessage) + error :=
  match readWarpMessage b with
  | Some (vm, []) => inl vm
  | Some (_, _ :: _) => inr (LibraryError "codec" "leftover bytes")
  | None => inr (LibraryError "codec" "insufficient length for input")
  end.

(** *** The codec by reflection

    [Codec.Marshal(Version, message)] and
    [Codec.Unmarshal(message.Payload, &warpMessage)], with a [uint16]
    version as first argument of the one and first result of the other,
    are the methods of avalanchego's [codec.Manager]. Its codecs marshal a
    struct by reflection: the fields tagged [serialize:"true"] are written
    in the order of their declaration and every other field is skipped;
    unmarshalling reads the tagged fields and leaves the others as the
    destination has them. [WarpMessageTags] says which fields of
    [WarpMessage] carry the tag, so that the declaration in the source can
    be told from one that tags its fields. *)
Record WarpMessageTags : Type := mkWarpMessageTags {
  tagOriginChainId : bool;
  tagOriginSenderAddress : bool;
  tagDestinationChainId : bool;
  tagDestinationAddress : bool;
  tagPayload : bool
}.


Definition allTagged : WarpMessageTags :=
  mkWarpMessageTags true true true true true.


Definition packField (tagged : bool) (encoding : bytes) : bytes :=
  if tagged then encoding else [].

Definition unpackField {A : Type} (tagged : bool) (r : reader A) (kept : A) : reader A :=
  if tagged then r else rret kept.

(** The layout of the tagged fields is that of [Codec_Marshal]: an array
    of 32 bytes as it is, a byte slice behind its 4-byte length. *)
Definition reflect_Marshal (tags : WarpMessageTags) (version : Z) (m : WarpMessage)
    : bytes + error :=
  if tagPayload tags && (2 ^ 32 <=? Z.of_nat (List.length (Payload m)))
  then inr (LibraryError "codec" "slice length too large")
  else inl (bigEndian 2 version
            ++ packField (tagOriginChainId tags) (Vector.to_list (OriginChainId m))
            ++ packField (tagOriginSenderAddress tags)
                 (Vector.to_list (OriginSenderAddress m))
            ++ packField (tagDestinationChainId tags)
                 (Vector.to_list (DestinationChainId m))
            ++ packField (tagDestinationAddress tags)
                 (Vector.to_list (DestinationAddress m))
            ++ packField (tagPayload tags)
                 (bigEndian 4 (Z.of_nat (List.length (Payload m))) ++ Payload m)).

Definition readTagged (tags : WarpMessageTags) (destination : WarpMessage)
    : reader (Z * WarpMessage) :=
  version <- UnpackUint 2 ;;
  origin <- unpackField (tagOriginChainId tags) (UnpackFixed 32)
              (OriginChainId destination) ;;
  sender <- unpackField (tagOriginSenderAddress tags) (UnpackFixed 32)
              (OriginSenderAddress destination) ;;
  chain <- unpackField (tagDestinationChainId tags) (UnpackFixed 32)
             (DestinationChainId destination) ;;
  address <- unpackField (tagDestinationAddress tags) (UnpackFixed 32)
               (DestinationAddress destination) ;;
  payload <- unpackField (tagPayload tags) UnpackBytes (Payload destination) ;;
  rret (version, mkWarpMessage origin sender chain address payload).

Definition reflect_Unmarshal (tags : WarpMessageTags) (destination : WarpMessage)
    (b : bytes) : (Z * WarpMessage) + error :=
  match readTagged tags destination b with
  | Some (vm, []) => inl vm
  | Some (_, _ :: _) => inr (LibraryError "codec" "leftover bytes")
  | None => inr (LibraryError "codec" "insufficient length for input")
  end.


(* ===================================================================== *)
(** ** Keccak-256 *)
(* ===================================================================== *)

(** The hash behind ABI event identifiers
    ([crypto.Keccak256Hash] of the event's signature string): the
    Keccak-f[1600] sponge with rate 136 and the original padding. Lanes are
    64-bit values held in [N]. *)
Module Keccak.
Local Open Scope N_scope.

Definition mask64 : N := 0xFFFFFFFFFFFFFFFF.

Definition rotl64 (x n : N) : N :=
  N.lor (N.land (N.shiftl x n) mask64) (N.shiftr x (64 - n)).

Definition lane (st : list N) (x y : nat) : N := nth (x + 5 * y) st 0.

Definition roundConstants : list N :=
  [0x0000000000000001; 0x0000000000008082; 0x800000000000808A; 0x8000000080008000;
   0x000000000000808B; 0x0000000080000001; 0x8000000080008081; 0x8000000000008009;
   0x000000000000008A; 0x0000000000000088; 0x0000000080008009; 0x000000008000000A;
   0x000000008000808B; 0x800000000000008B; 0x8000000000008089; 0x8000000000008003;
   0x8000000000008002; 0x8000000000000080; 0x000000000000800A; 0x800000008000000A;
   0x8000000080008081; 0x8000000000008080; 0x0000000080000001; 0x8000000080008008].

Definition rotationOffsets : list N :=
  [ 0;  1; 62; 28; 27;
   36; 44;  6; 55; 20;
    3; 10; 43; 25; 39;
   41; 45; 15; 21;  8;
   18;  2; 61; 56; 14].

Definition coords : list (nat * nat) :=
  flat_map (fun y => map (fun x => (x, y)) (seq 0 5)) (seq 0 5).

Definition theta (st : list N) : list N :=
  let c x := fold_left N.lxor (map (lane st x) (seq 0 5)) 0 in
  let d x := N.lxor (c ((x + 4) mod 5)%nat) (rotl64 (c ((x + 1) mod 5)%nat) 1) in
  map (fun '(x, y) => N.lxor (lane st x y) (d x)) coords.

Definition rhoPi (st : list N) : list N :=
  map (fun '(x, y) =>
         let sx := ((x + 3 * y) mod 5)%nat in
         rotl64 (lane st sx x) (nth (sx + 5 * x) rotationOffsets 0)) coords.

Definition chi (st : list N) : list N :=
  map (fun '(x, y) =>
         N.lxor (lane st x y)
                (N.land (N.lxor (lane st ((x + 1) mod 5)%nat y) mask64)
                        (lane st ((x + 2) mod 5)%nat y))) coords.

Definition iota (rc : N) (st : list N) : list N :=
  match st with
  | [] => []
  | a :: rest => N.lxor a rc :: rest
  end.

Definition keccakF1600 (st : list N) : list N :=
  fold_left (fun s rc => iota rc (chi (rhoPi (theta s)))) roundConstants st.

Definition rate : nat := 136.

Fixpoint laneOfBytes (bs : bytes) : N :=
  match bs with
  | [] => 0
  | b :: rest => Byte.to_N b + 256 * laneOfBytes rest
  end.

Fixpoint bytesOfLane (n : nat) (v : N) : bytes :=
  match n with
  | O => []
  | S n' => byte_of_Z (Z.of_N v) :: bytesOfLane n' (v / 256)
  end.

Fixpoint chunks (fuel size : nat) (bs : bytes) : list bytes :=
  match fuel with
  | O => []
  | S fuel' =>
      match bs with
      | [] => []
      | _ => firstn size bs :: chunks fuel' size (skipn size bs)
      end
  end.

Definition pad (msg : bytes) : bytes :=
  let q := (rate - (List.length msg mod rate))%nat in
  if Nat.eqb q 1 then msg ++ [x81]
  else msg ++ [x01] ++ repeat x00 (q - 2) ++ [x80].

Fixpoint xorLanes (st blk : list N) : list N :=
  match st, blk with
  | s :: st', b :: blk' => N.lxor s b :: xorLanes st' blk'
  | _, [] => st
  | [], _ => []
  end.

Definition absorb (st : list N) (block : bytes) : list N :=
  keccakF1600 (xorLanes st (map laneOfBytes (chunks 17 8 block))).

Definition Keccak256 (msg : bytes) : bytes :=
  let padded := pad msg in
  let st := fold_left absorb (chunks (List.length padded) rate padded) (repeat 0 25) in
  firstn 32 (flat_map (bytesOfLane 8) st).

End Keccak.

Definition Keccak256Hash (s : string) : Hash :=
  BytesToHash (Keccak.Keccak256 (list_byte_of_string s)).

(** The signature string of the event the contract's ABI declares
    ([WarpMessengerRawABI]: event [SendWarpMessage] with inputs [bytes32],
    [bytes32], [bytes32], [bytes]). *)
Definition SendWarpMessageEventSignature : string :=
  "SendWarpMessage(bytes32,bytes32,bytes32,bytes)".

Definition SubmitMessageEventID : string :=
  "da2b1cd3e6664863b4ad90f53a4e14fca9fc00f3f0e01e5c7b236a4355b6591a".

(* ===================================================================== *)
(** ** Upgrade configuration *)
(* ===================================================================== *)

(** [BlockTimestamp] is a [*big.Int]: [None] is the nil pointer. *)
Record UpgradeableConfig : Type := mkUpgradeableConfig {
  BlockTimestamp : option Z;
  Disable : bool
}.

Definition BigNumEqual (a b : option Z) : bool :=
  match a, b with
  | Some x, Some y => x =? y
  | None, None => true
  | _, _ => false
  end.

(** Modelled from the spec: [UpgradeableConfig.Equal] is declared in a file
    of the package that is not at hand. Spec 3 and 8: "two configs are
    equal iff all embedded and extension fields match"; "two
    UpgradeableConfig instances with identical (activationTimestamp,
    disabled) are equal regardless of construction path; differing in
    either field makes them unequal". *)
Definition UpgradeableConfig_Equal (c other : UpgradeableConfig) : bool :=
  Bool.eqb (Disable c) (Disable other)
  && BigNumEqual (BlockTimestamp c) (BlockTimestamp other).

Record WarpMessengerConfig : Type := mkWarpMessengerConfig {
  Upgradeable : UpgradeableConfig
}.

(** The values of the interface [StatefulPrecompileConfig]: a
    [*WarpMessengerConfig], or the config of another precompile, named by
    its kind. *)
Inductive StatefulPrecompileConfig : Type :=
| IsWarpMessengerConfig (c : WarpMessengerConfig)
| OtherPrecompileConfig (kind : string) (u : UpgradeableConfig).

Definition NewWarpMessengerConfig (blockTimestamp : option Z) : WarpMessengerConfig :=
  {| Upgradeable := {| BlockTimestamp := blockTimestamp; Disable := false |} |}.

Definition NewDisableWarpMessengerConfig (blockTimestamp : option Z) : WarpMessengerConfig :=
  {| Upgradeable := {| BlockTimestamp := blockTimestamp; Disable := true |} |}.

Definition WarpMessengerConfig_Equal (c : WarpMessengerConfig) (s : StatefulPrecompileConfig) : bool :=
  match s with
  | IsWarpMessengerConfig other =>
      let equals := UpgradeableConfig_Equal (Upgradeable c) (Upgradeable other) in
      equals
  | OtherPrecompileConfig _ _ => false
  end.

(* ===================================================================== *)
(** ** Execution context *)
(* ===================================================================== *)

(** [snow.Context], as far as the precompile reads it. The validator state
    is the host's; its type [VS] is left open. *)
Record SnowContext (VS : Type) : Type := mkSnowContext {
  ChainID : Hash;
  ValidatorState : VS
}.
Arguments mkSnowContext {VS} _ _.
Arguments ChainID {VS} _.
Arguments ValidatorState {VS} _.

(** [block.Context] of the proposer VM. *)
Record ProposerVMBlockContext : Type := mkProposerVMBlockContext {
  PChainHeight : Z
}.

(** [ProposerVMBlockCtx] is a pointer: [None] is nil. *)
Record PredicateContext (VS : Type) : Type := mkPredicateContext {
  SnowCtx : SnowContext VS;
  ProposerVMBlockCtx : option ProposerVMBlockContext
}.
Arguments mkPredicateContext {VS} _ _.
Arguments SnowCtx {VS} _.
Arguments ProposerVMBlockCtx {VS} _.

Record Log : Type := mkLog {
  LogAddress : Address;
  Topics : list Hash;
  Data : bytes;
  BlockNumber : Z
}.

(** The state database as the precompile sees it:
    [GetPredicateStorageSlots] returns the slots (a slice, [None] when nil)
    and whether the address has any; the logs are those added so far,
    oldest first. *)
Record StateDB : Type := mkStateDB {
  GetPredicateStorageSlots : Address -> option bytes * bool;
  Logs : list Log
}.

(** Modelled from the spec: [AddLog] is a method of the state database,
    which is not at hand. Spec 4.6: "emits it as a log record addressed to
    the precompile, with indexed topics ... and the serialized message as
    log data". One record is appended; nothing else changes. *)
Definition AddLog (db : StateDB) (addr : Address) (topics : list Hash)
    (data : bytes) (blockNumber : Z) : StateDB :=
  {| GetPredicateStorageSlots := GetPredicateStorageSlots db;
     Logs := Logs db ++ [mkLog addr topics data blockNumber] |}.

(** [PrecompileAccessibleState]: [GetSnowContext], [GetStateDB] and
    [GetBlockContext().Number()]. *)
Record AccessibleState (VS : Type) : Type := mkAccessibleState {
  GetSnowContext : SnowContext VS;
  GetStateDB : StateDB;
  Number : Z
}.
Arguments mkAccessibleState {VS} _ _ _.
Arguments GetSnowContext {VS} _.
Arguments GetStateDB {VS} _.
Arguments Number {VS} _.

(* ===================================================================== *)
(** ** The predicate and the handlers *)
(* ===================================================================== *)

Section WarpMessenger.

Context {VS : Type}.

(** *** Libraries outside the repository *)

(** [rlp.DecodeBytes(b, &[][]byte)]. *)
Variable rlp_DecodeBytes : bytes -> list bytes + error.

(** [teleporter.ParseMessage]. *)
Variable teleporter_ParseMessage : bytes -> TeleporterMessage + error.

(** [Signature.Verify(ctx, msg, pChainState, pChainHeight, quorumNum,
    quorumDen)]; [None] is a nil error. *)
Variable Signature_Verify :
  Signature -> UnsignedMessage -> VS -> Z -> Z -> Z -> option error.

(** [WarpMessengerABI.UnpackInput("getVerifiedWarpMessage", input)],
    already converted to the [*big.Int] it holds. *)
Variable ABI_UnpackInput_getVerifiedWarpMessage : bytes -> Z + error.

(** [WarpMessengerABI.UnpackInputIntoInterface(&in, "sendWarpMessage", input)]. *)
Variable ABI_UnpackInputIntoInterface_sendWarpMessage :
  bytes -> SendWarpMessageInput + error.

(** [WarpMessengerABI.PackOutput] for the two methods with outputs. *)
Variable ABI_PackOutput_getBlockchainId : Hash -> bytes + error.
Variable ABI_PackOutput_getVerifiedWarpMessage : WarpMessage -> bool -> bytes + error.

(** Constants of the package declared outside this file: the address of
    the precompile and the codec version. *)
Variable WarpMessengerAddress : Address.
Variable Version : Z.

(** *** verifyPredicate *)

(** The body of the loop over [messagesBytes], followed by the rest of
    the loop. *)
Fixpoint verifyMessages (predicateContext : PredicateContext VS)
    (proposer : ProposerVMBlockContext) (messagesBytes : list bytes) : option error :=
  match messagesBytes with
  | [] => None
  | messageBytes :: rest =>
      match teleporter_ParseMessage messageBytes with
      | inr e => Some e
      | inl message =>
          if negb (Hash_eqb (DestinationChainID (Unsigned message))
                            (ChainID (SnowCtx predicateContext)))
          then Some (errors_New "wrong chain id")
          else
            match Signature_Verify (MsgSignature message) (Unsigned message)
                    (ValidatorState (SnowCtx predicateContext))
                    (PChainHeight proposer)
                    WarpQuorumNumerator WarpQuorumDenominator with
            | Some e => Some e
            | None => verifyMessages predicateContext proposer rest
            end
      end
  end.

Definition verifyPredicate (predicateContext : PredicateContext VS)
    (storageSlots : bytes) : option error :=
  match ProposerVMBlockCtx predicateContext with
  | None => Some (errors_New "missing proposer VM block context")
  | Some proposer =>
      if (List.length storageSlots =? 0)%nat then None
      else
        match rlp_DecodeBytes storageSlots with
        | inr e => Some e
        | inl messagesBytes => verifyMessages predicateContext proposer messagesBytes
        end
  end.

(** The admission of one blob in the words of spec 4.5, step 4: "parse as
    SignedMessage; fail the whole predicate if the message's destination
    chain identifier does not equal the verifying chain's own identifier;
    verify the aggregate signature against the validator set resolved at
    the proposer's pinned height, requiring the accumulated signer weight
    to reach at least 67/100 of total weight". [None] when the blob is
    passed, the failure otherwise. *)
Definition spec_admitBlob (predicateContext : PredicateContext VS)
    (proposer : ProposerVMBlockContext) (blob : bytes) : option error :=
  match teleporter_ParseMessage blob with
  | inr e => Some e
  | inl message =>
      if Hash_eqb (DestinationChainID (Unsigned message))
                  (ChainID (SnowCtx predicateContext))
      then Signature_Verify (MsgSignature message) (Unsigned message)
             (ValidatorState (SnowCtx predicateContext))
             (PChainHeight proposer) 67 100
      else Some (errors_New "wrong chain id")
  end.

(** *** getBlockchainId *)

Definition PackGetBlockchainIdOutput (blockchainId : Hash) : bytes + error :=
  ABI_PackOutput_getBlockchainId blockchainId.

Definition getBlockchainId (accessibleState : AccessibleState VS)
    (caller addr : Address) (input : bytes) (suppliedGas : Z) (readOnly : bool)
    : exec (CallResult * StateDB) :=
  let db := GetStateDB accessibleState in
  match deductGas suppliedGas GetBlockchainIdGasCost with
  | (_, Some e) => Returns (mkCallResult None 0 (Some e), db)
  | (remainingGas, None) =>
      if readOnly then Returns (mkCallResult None remainingGas (Some ErrWriteProtection), db)
      else
        match PackGetBlockchainIdOutput (ChainID (GetSnowContext accessibleState)) with
        | inr e => Returns (mkCallResult None remainingGas (Some e), db)
        | inl packedOutput => Returns (mkCallResult (Some packedOutput) remainingGas None, db)
        end
  end.

(** *** getVerifiedWarpMessage *)

Definition UnpackGetVerifiedWarpMessageInput (input : bytes) : Z * option error :=
  match ABI_UnpackInput_getVerifiedWarpMessage input with
  | inr e => (0, Some e)
  | inl unpacked => (unpacked, None)
  end.

Definition PackGetVerifiedWarpMessageOutput (outputStruct : GetVerifiedWarpMessageOutput)
    : bytes + error :=
  ABI_PackOutput_getVerifiedWarpMessage (Message outputStruct) (Success outputStruct).

Definition getVerifiedWarpMessage (accessibleState : AccessibleState VS)
    (caller addr : Address) (input : bytes) (suppliedGas : Z) (readOnly : bool)
    : exec (CallResult * StateDB) :=
  let db := GetStateDB accessibleState in
  match deductGas suppliedGas GetVerifiedWarpMessageGasCost with
  | (_, Some e) => Returns (mkCallResult None 0 (Some e), db)
  | (remainingGas, None) =>
  if readOnly then Returns (mkCallResult None remainingGas (Some ErrWriteProtection), db)
  else
  match UnpackGetVerifiedWarpMessageInput input with
  | (_, Some e) => Returns (mkCallResult None remainingGas (Some e), db)
  | (inputIndex, None) =>
  match GetPredicateStorageSlots db WarpMessengerAddress with
  | (_, false) | (None, _) =>
      Returns (mkCallResult None remainingGas
                 (Some (errors_New "missing access list storage slots from precompile during execution")), db)
  | (Some storageSlots, true) =>
  match rlp_DecodeBytes storageSlots with
  | inr e => Returns (mkCallResult None remainingGas (Some e), db)
  | inl signedMessages =>
  (* Check that the message index exists. *)
  if negb (IsInt64 inputIndex)
  then Returns (mkCallResult None remainingGas (Some (errors_New "invalid message index")), db)
  else
  let messageIndex := inputIndex in
  if Z.of_nat (List.length signedMessages) <=? messageIndex
  then Returns (mkCallResult None remainingGas (Some (errors_New "invalid message index")), db)
  else
  (* Parse the raw message to be processed. *)
  match index signedMessages messageIndex with
  | Panics msg => Panics msg
  | Returns signedMessage =>
  match teleporter_ParseMessage signedMessage with
  | inr e => Returns (mkCallResult None remainingGas (Some e), db)
  | inl message =>
  (* Charge gas per validator included in the aggregate signature *)
  match MsgSignature message with
  | OtherSignature _ =>
      Returns (mkCallResult None remainingGas (Some (errors_New "invalid aggregate signature")), db)
  | BitSetSignature signers _ =>
  let numSigners := HammingWeight (BitsFromBytes signers) in
  match deductGas remainingGas (uint64_mul GetVerifiedWarpMessageGasCost numSigners) with
  | (_, Some e) => Returns (mkCallResult None 0 (Some e), db)
  | (remainingGas, None) =>
  match Codec_Unmarshal (umPayload (Unsigned message)) with
  | inr e => Returns (mkCallResult None remainingGas (Some e), db)
  | inl (_, warpMessage) =>
  let output := {| Message := warpMessage; Success := true |} in
  match PackGetVerifiedWarpMessageOutput output with
  | inr e => Returns (mkCallResult None remainingGas (Some e), db)
  | inl packedOutput =>
      (* Return the packed output and the remaining gas *)
      Returns (mkCallResult (Some packedOutput) remainingGas None, db)
  end end end end end end end end end end.

(** *** sendWarpMessage *)

Definition UnpackSendWarpMessageInput (input : bytes) : SendWarpMessageInput * option error :=
  match ABI_UnpackInputIntoInterface_sendWarpMessage input with
  | inr e => (mkSendWarpMessageInput (fillArray 32 []) (fillArray 32 []) [], Some e)
  | inl inputStruct => (inputStruct, None)
  end.

Definition sendWarpMessage (accessibleState : AccessibleState VS)
    (caller addr : Address) (input : bytes) (suppliedGas : Z) (readOnly : bool)
    : exec (CallResult * StateDB) :=
  let db := GetStateDB accessibleState in
  match deductGas suppliedGas SendWarpMessageGasCost with
  | (_, Some e) => Returns (mkCallResult None 0 (Some e), db)
  | (remainingGas, None) =>
  if readOnly then Returns (mkCallResult None remainingGas (Some ErrWriteProtection), db)
  else
  match UnpackSendWarpMessageInput input with
  | (_, Some e) => Returns (mkCallResult None remainingGas (Some e), db)
  | (inputStruct, None) =>
  let message :=
    {| OriginChainId := ChainID (GetSnowContext accessibleState);
       OriginSenderAddress := Address_Hash caller;
       DestinationChainId := inDestinationChainId inputStruct;
       DestinationAddress := inDestinationAddress inputStruct;
       Payload := inPayload inputStruct |} in
  match Codec_Marshal Version message with
  | inr e => Returns (mkCallResult None remainingGas (Some e), db)
  | inl data =>
      let db' :=
        AddLog db WarpMessengerAddress
          [ HexToHash SubmitMessageEventID;
            OriginChainId message;
            DestinationChainId message ]
          data
          (Uint64 (Number accessibleState)) in
      Returns (mkCallResult (Some []) remainingGas None, db')
  end end end.

(** [sendWarpMessage] with the [Marshal] of the package's [Codec] left
    open: the same body, statement for statement.
    [sendWarpMessage_with Codec_Marshal] is [sendWarpMessage]. *)
Definition sendWarpMessage_with (Marshal : Z -> WarpMessage -> bytes + error)
    (accessibleState : AccessibleState VS)
    (caller addr : Address) (input : bytes) (suppliedGas : Z) (readOnly : bool)
    : exec (CallResult * StateDB) :=
  let db := GetStateDB accessibleState in
  match deductGas suppliedGas SendWarpMessageGasCost with
  | (_, Some e) => Returns (mkCallResult None 0 (Some e), db)
  | (remainingGas, None) =>
  if readOnly then Returns (mkCallResult None remainingGas (Some ErrWriteProtection), db)
  else
  match UnpackSendWarpMessageInput input with
  | (_, Some e) => Returns (mkCallResult None remainingGas (Some e), db)
  | (inputStruct, None) =>
  let message :=
    {| OriginChainId := ChainID (GetSnowContext accessibleState);
       OriginSenderAddress := Address_Hash caller;
       DestinationChainId := inDestinationChainId inputStruct;
       DestinationAddress := inDestinationAddress inputStruct;
       Payload := inPayload inputStruct |} in
  match Marshal Version message with
  | inr e => Returns (mkCallResult None remainingGas (Some e), db)
  | inl data =>
      let db' :=
        AddLog db WarpMessengerAddress
          [ HexToHash SubmitMessageEventID;
            OriginChainId message;
            DestinationChainId message ]
          data
          (Uint64 (Number accessibleState)) in
      Returns (mkCallResult (Some []) remainingGas None, db')
  end end end.

End WarpMessenger.

(* ===================================================================== *)
(** ** Stand-ins for the outside libraries *)
(* ===================================================================== *)

(** Small executable stand-ins for the libraries the section above takes
    as parameters, in the manner of the mocks a Go test would pass. They
    serve to run the handlers on concrete inputs; no general statement
    below depends on them. *)
Module Reference.

(** The validator state of the stand-in: the total weight of the
    validator set, every validator weighing one. *)
Definition VS : Type := Z.

(** RLP: a list of byte strings. *)
Definition rlpLength (n : Z) (off : Z) : bytes :=
  if n <? 56 then [byte_of_Z (off + n)]
  else if n <? 256 then [byte_of_Z (off + 56); byte_of_Z n]
  else byte_of_Z (off + 57) :: bigEndian 2 n.

Definition rlpString (s : bytes) : bytes :=
  match s with
  | [b] => if Z_of_byte b <? 128 then [b] else rlpLength 1 128 ++ s
  | _ => rlpLength (Z.of_nat (List.length s)) 128 ++ s
  end.

Definition rlp_EncodeToBytes (l : list bytes) : bytes :=
  let body := flat_map rlpString l in
  rlpLength (Z.of_nat (List.length body)) 192 ++ body.

(** The header at the front of [b]: payload length and what follows the
    header, for the kind whose short form starts at [off]. *)
Definition rlpHeader (off : Z) (b : bytes) : option (Z * bytes) :=
  match b with
  | [] => None
  | h :: rest =>
      let t := Z_of_byte h - off in
      if (0 <=? t) && (t <? 56) then Some (t, rest)
      else if (56 <=? t) && (t <? 64) then
        let ll := Z.to_nat (t - 55) in
        if (List.length rest <? ll)%nat then None
        else Some (SetBytes (firstn ll rest), skipn ll rest)
      else None
  end.

Fixpoint rlpStrings (fuel : nat) (b : bytes) : option (list bytes) :=
  match fuel, b with
  | _, [] => Some []
  | O, _ :: _ => None
  | S fuel', h :: rest =>
      if Z_of_byte h <? 128 then option_map (cons [h]) (rlpStrings fuel' rest)
      else
        match rlpHeader 128 b with
        | None => None
        | Some (n, body) =>
            if (List.length body <? Z.to_nat n)%nat then None
            else option_map (cons (firstn (Z.to_nat n) body))
                            (rlpStrings fuel' (skipn (Z.to_nat n) body))
        end
  end.

Definition rlp_DecodeBytes (b : bytes) : list bytes + error :=
  match rlpHeader 192 b with
  | None => inr (LibraryError "rlp" "expected input list")
  | Some (n, body) =>
      if negb (Z.of_nat (List.length body) =? n)
      then inr (LibraryError "rlp" "value size mismatch")
      else match rlpStrings (List.length body) body with
           | Some l => inl l
           | None => inr (LibraryError "rlp" "malformed list element")
           end
  end.

(** Signed messages on the wire: codec version, source and destination
    chain, payload, then the signature behind a 4-byte type tag (0 for
    the bit-set signature). *)
Definition signatureBytes (s : Signature) : bytes :=
  match s with
  | BitSetSignature signers sig =>
      bigEndian 4 0 ++ bigEndian 4 (Z.of_nat (List.length signers)) ++ signers
      ++ Vector.to_list sig
  | OtherSignature raw =>
      bigEndian 4 1 ++ bigEndian 4 (Z.of_nat (List.length raw)) ++ raw
  end.

Definition messageBytes (m : TeleporterMessage) : bytes :=
  bigEndian 2 0
  ++ Vector.to_list (SourceChainID (Unsigned m))
  ++ Vector.to_list (DestinationChainID (Unsigned m))
  ++ bigEndian 4 (Z.of_nat (List.length (umPayload (Unsigned m))))
  ++ umPayload (Unsigned m)
  ++ signatureBytes (MsgSignature m).

Definition readSignature : reader Signature :=
  tag <- UnpackUint 4 ;;
  if tag =? 0 then
    signers <- UnpackBytes ;;
    sig <- UnpackFixed 96 ;;
    rret (BitSetSignature signers sig)
  else
    raw <- UnpackBytes ;;
    rret (OtherSignature raw).

Definition readMessage : reader TeleporterMessage :=
  _ <- UnpackUint 2 ;;
  source <- UnpackFixed 32 ;;
  destination <- UnpackFixed 32 ;;
  payload <- UnpackBytes ;;
  sig <- readSignature ;;
  rret (mkTeleporterMessage (mkUnsignedMessage source destination payload) sig).

Definition teleporter_ParseMessage (b : bytes) : TeleporterMessage + error :=
  match readMessage b with
  | Some (m, []) => inl m
  | _ => inr (LibraryError "teleporter" "cannot parse message")
  end.

(** Verification: a bit-set signature passes when the signers, one unit
    of weight each, reach the quorum of the total weight. *)
Definition Signature_Verify (s : Signature) (_ : UnsignedMessage) (total : VS)
    (_ : Z) (quorumNum quorumDen : Z) : option error :=
  match s with
  | BitSetSignature signers _ =>
      if quorumNum * total <=? quorumDen * HammingWeight (BitsFromBytes signers)
      then None
      else Some (LibraryError "teleporter" "insufficient weight")
  | OtherSignature _ => Some (LibraryError "teleporter" "unknown signature")
  end.

(** ABI: 32-byte words, dynamic values behind an offset. *)
Definition word (v : Z) : bytes := bigEndian 32 v.

Definition padded (b : bytes) : bytes :=
  b ++ repeat x00 ((32 - List.length b mod 32) mod 32).

Definition ABI_UnpackInput_getVerifiedWarpMessage (input : bytes) : Z + error :=
  if (List.length input =? 32)%nat then inl (SetBytes input)
  else inr (LibraryError "abi" "improperly formatted input").

Definition PackGetVerifiedWarpMessage (messageIndex : Z) : bytes := word messageIndex.

Definition ABI_UnpackInputIntoInterface_sendWarpMessage (input : bytes)
    : SendWarpMessageInput + error :=
  let r : reader SendWarpMessageInput :=
    destination <- UnpackFixed 32 ;;
    address <- UnpackFixed 32 ;;
    offset <- UnpackUint 32 ;;
    fun _ =>
      (len <- UnpackUint 32 ;;
       fun bs => if (List.length bs <? Z.to_nat len)%nat then None
                 else Some (mkSendWarpMessageInput destination address
                              (firstn (Z.to_nat len) bs), []))
        (skipn (Z.to_nat offset) input) in
  match r input with
  | Some (inputStruct, _) => inl inputStruct
  | None => inr (LibraryError "abi" "cannot unmarshal input")
  end.

Definition PackSendWarpMessage (inputStruct : SendWarpMessageInput) : bytes :=
  Vector.to_list (inDestinationChainId inputStruct)
  ++ Vector.to_list (inDestinationAddress inputStruct)
  ++ word 96
  ++ word (Z.of_nat (List.length (inPayload inputStruct)))
  ++ padded (inPayload inputStruct).

Definition ABI_PackOutput_getBlockchainId (blockchainId : Hash) : bytes + error :=
  inl (Vector.to_list blockchainId).

Definition ABI_PackOutput_getVerifiedWarpMessage (m : WarpMessage) (success : bool)
    : bytes + error :=
  inl (word 64 ++ word (if success then 1 else 0)
       ++ Vector.to_list (OriginChainId m)
       ++ Vector.to_list (OriginSenderAddress m)
       ++ Vector.to_list (DestinationChainId m)
       ++ Vector.to_list (DestinationAddress m)
       ++ word 160
       ++ word (Z.of_nat (List.length (Payload m)))
       ++ padded (Payload m)).

Definition WarpMessengerAddress : Address :=
  fillArray 20 [x02; x00; x00; x00; x00; x00; x00; x00; x00; x00;
                x00; x00; x00; x00; x00; x00; x00; x00; x00; x05].

Definition Version : Z := 0.

(** The handlers and the predicate over the stand-ins. *)
Definition verifyPredicate :=
  @verifyPredicate VS rlp_DecodeBytes teleporter_ParseMessage Signature_Verify.

Definition getBlockchainId :=
  @getBlockchainId VS ABI_PackOutput_getBlockchainId.

Definition getVerifiedWarpMessage :=
  @getVerifiedWarpMessage VS rlp_DecodeBytes teleporter_ParseMessage
    ABI_UnpackInput_getVerifiedWarpMessage ABI_PackOutput_getVerifiedWarpMessage
    WarpMessengerAddress.

Definition sendWarpMessage :=
  @sendWarpMessage VS ABI_UnpackInputIntoInterface_sendWarpMessage
    WarpMessengerAddress Version.

(** *** Sample data *)

Definition chainA : Hash := fillArray 32 [xaa].
Definition chainB : Hash := fillArray 32 [xbb].
Definition alice : Address := fillArray 20 [xa1].
Definition bob : Hash := fillArray 32 [xb0; xb0].

Definition sampleWarpMessage : WarpMessage :=
  mkWarpMessage chainA (Address_Hash alice) chainB bob [x68; x69].

Definition samplePayload : bytes :=
  match Codec_Marshal Version sampleWarpMessage with
  | inl data => data
  | inr _ => []
  end.

(** A message for chain B signed by the validators of bits 0, 1 and 2. *)
Definition signedForB : TeleporterMessage :=
  mkTeleporterMessage (mkUnsignedMessage chainA chainB samplePayload)
    (BitSetSignature [x07] (fillArray 96 [])).

(** The same message under a signature of another kind. *)
Definition oddlySigned : TeleporterMessage :=
  mkTeleporterMessage (mkUnsignedMessage chainA chainB samplePayload)
    (OtherSignature [x01]).

Definition slotsOf (ms : list TeleporterMessage) : bytes :=
  rlp_EncodeToBytes (map messageBytes ms).

Definition stateWith (chain : Hash) (slots : option bytes) : AccessibleState VS :=
  mkAccessibleState (mkSnowContext chain 4)
    (mkStateDB (fun a => if VectorEq.eqb byte Byte.eqb a WarpMessengerAddress
                         then (slots, true) else (None, false)) [])
    7.

End Reference.


(* ===================================================================== *)
(** * Properties *)
(* ===================================================================== *)

(** ** Bytes and integers *)

Lemma Z_of_byte_range (b : byte) : 0 <= Z_of_byte b < 256.
Proof.
  unfold Z_of_byte. pose proof (Byte.to_N_bounded b). lia.
Qed.

Lemma Z_of_byte_of_Z (z : Z) : Z_of_byte (byte_of_Z z) = z mod 256.
Proof.
  unfold Z_of_byte, byte_of_Z.
  pose proof (Z.mod_pos_bound z 256 ltac:(lia)) as Hz.
  destruct (Byte.of_N (Z.to_N (z mod 256))) as [b|] eqn:E.
  - apply Byte.to_of_N in E. rewrite E. lia.
  - apply Byte.of_N_None_iff in E. lia.
Qed.

Lemma SetBytes_snoc (bs : bytes) (b : byte) :
  SetBytes (bs ++ [b]) = SetBytes bs * 256 + Z_of_byte b.
Proof.
  unfold SetBytes. rewrite fold_left_app. reflexivity.
Qed.

Lemma length_bigEndian (n : nat) (v : Z) : List.length (bigEndian n v) = n.
Proof.
  revert v. induction n as [|n IH]; intros v; simpl.
  - reflexivity.
  - rewrite length_app, IH. simpl. lia.
Qed.

Lemma SetBytes_bigEndian (n : nat) (v : Z) :
  0 <= v < 256 ^ Z.of_nat n -> SetBytes (bigEndian n v) = v.
Proof.
  revert v. induction n as [|n IH]; intros v Hv.
  - simpl in *. unfold SetBytes. simpl. lia.
  - cbn [bigEndian]. rewrite SetBytes_snoc, Z_of_byte_of_Z.
    rewrite Nat2Z.inj_succ, Z.pow_succ_r in Hv by lia.
    rewrite IH.
    + pose proof (Z.div_mod v 256 ltac:(lia)). lia.
    + split.
      * apply Z.div_pos; lia.
      * apply Z.div_lt_upper_bound; lia.
Qed.

Lemma takeArray_to_list (n : nat) (v : Vector.t byte n) (rest : bytes) :
  takeArray n (Vector.to_list v ++ rest) = Some (v, rest).
Proof.
  induction v as [|b n v IH].
  - reflexivity.
  - rewrite Vector.to_list_cons. cbn [app takeArray]. rewrite IH. reflexivity.
Qed.

Lemma UnpackUint_bigEndian (n : nat) (v : Z) (rest : bytes) :
  0 <= v < 256 ^ Z.of_nat n ->
  UnpackUint n (bigEndian n v ++ rest) = Some (v, rest).
Proof.
  intros Hv. unfold UnpackUint.
  pose proof (length_bigEndian n v) as Hlen.
  assert (Hlt : (List.length (bigEndian n v ++ rest) <? n)%nat = false).
  { apply Nat.ltb_ge. rewrite length_app. lia. }
  rewrite Hlt.
  rewrite firstn_app, skipn_app, Hlen, Nat.sub_diag.
  rewrite <- Hlen at 1. rewrite firstn_all.
  rewrite <- Hlen at 2. rewrite skipn_all.
  simpl. rewrite app_nil_r, SetBytes_bigEndian by assumption. reflexivity.
Qed.

Lemma UnpackBytes_prefixed (b rest : bytes) :
  Z.of_nat (List.length b) < 2 ^ 32 ->
  UnpackBytes (bigEndian 4 (Z.of_nat (List.length b)) ++ b ++ rest) = Some (b, rest).
Proof.
  intros Hb. unfold UnpackBytes, rbind.
  rewrite UnpackUint_bigEndian by (change (256 ^ Z.of_nat 4) with (2 ^ 32); lia).
  rewrite Nat2Z.id.
  assert (Hlt : (List.length (b ++ rest) <? List.length b)%nat = false).
  { apply Nat.ltb_ge. rewrite length_app. lia. }
  rewrite Hlt, firstn_app, skipn_app, Nat.sub_diag, firstn_all, skipn_all.
  simpl. rewrite app_nil_r. reflexivity.
Qed.

(** ** Hashes and addresses *)



(** The constant put first among the topics of the log, byte for byte. *)
Example SubmitMessageEventID_bytes :
  Vector.to_list (HexToHash SubmitMessageEventID)
  = [xda; x2b; x1c; xd3; xe6; x66; x48; x63; xb4; xad; x90; xf5; x3a; x4e; x14; xfc;
     xa9; xfc; x00; xf3; xf0; xe0; x1e; x5c; x7b; x23; x6a; x43; x55; xb6; x59; x1a].
Proof. vm_compute. reflexivity. Qed.

(** ** The codec round trip *)

Lemma Codec_Marshal_ok (version : Z) (m : WarpMessage) :
  Z.of_nat (List.length (Payload m)) < 2 ^ 32 ->
  exists data, Codec_Marshal version m = inl data.
Proof.
  intros H. unfold Codec_Marshal.
  destruct (2 ^ 32 <=? Z.of_nat (List.length (Payload m))) eqn:E.
  - apply Z.leb_le in E. lia.
  - eexists. reflexivity.
Qed.

Lemma Codec_round_trip (version : Z) (m : WarpMessage) (data : bytes) :
  0 <= version < 2 ^ 16 ->
  Codec_Marshal version m = inl data ->
  Codec_Unmarshal data = inl (version, m).
Proof.
  intros Hv. unfold Codec_Marshal.
  destruct (2 ^ 32 <=? Z.of_nat (List.length (Payload m))) eqn:E; [discriminate|].
  apply Z.leb_gt in E.
  intros Hdata.
  unfold Codec_Unmarshal, readWarpMessage, rbind, UnpackFixed.
  assert (Hd : forall x y : bytes, @inl bytes error x = inl y -> y = x) by congruence.
  apply Hd in Hdata. subst data. clear Hd.
  rewrite UnpackUint_bigEndian by (change (256 ^ Z.of_nat 2) with (2 ^ 16); lia).
  rewrite !takeArray_to_list.
  rewrite <- (app_nil_r (Payload m)) at 2.
  rewrite UnpackBytes_prefixed by assumption.
  unfold rret. destruct m; reflexivity.
Qed.

(** ** The codec by reflection *)

(** With every field tagged, the codec by reflection is the codec of the
    spec. *)
Lemma reflect_Marshal_allTagged (version : Z) (m : WarpMessage) :
  reflect_Marshal allTagged version m = Codec_Marshal version m.
Proof. reflexivity. Qed.

Lemma reflect_Unmarshal_allTagged (destination : WarpMessage) (b : bytes) :
  reflect_Unmarshal allTagged destination b = Codec_Unmarshal b.
Proof. reflexivity. Qed.







(** ** Gas deduction *)

Lemma deductGas_enough (suppliedGas requiredGas : Z) :
  requiredGas <= suppliedGas ->
  deductGas suppliedGas requiredGas = (suppliedGas - requiredGas, None).
Proof.
  intros H. unfold deductGas.
  destruct (suppliedGas <? requiredGas) eqn:E; [apply Z.ltb_lt in E; lia | reflexivity].
Qed.

Lemma deductGas_short (suppliedGas requiredGas : Z) :
  suppliedGas < requiredGas ->
  deductGas suppliedGas requiredGas = (0, Some ErrOutOfGas).
Proof.
  intros H. unfold deductGas.
  destruct (suppliedGas <? requiredGas) eqn:E; [reflexivity | apply Z.ltb_ge in E; lia].
Qed.

Lemma index_in_range {A : Type} (l : list A) (i : Z) (a : A) :
  0 <= i -> nth_error l (Z.to_nat i) = Some a -> index l i = Returns a.
Proof.
  intros Hi Hnth. unfold index.
  assert (Hlen : (Z.to_nat i < List.length l)%nat).
  { apply nth_error_Some. congruence. }
  destruct (i <? 0) eqn:E1; [apply Z.ltb_lt in E1; lia|].
  destruct (Z.of_nat (List.length l) <=? i) eqn:E2; [apply Z.leb_le in E2; lia|].
  simpl. rewrite Hnth. reflexivity.
Qed.

Lemma Hash_eqb_eq (a b : Hash) : Hash_eqb a b = true <-> a = b.
Proof.
  unfold Hash_eqb. apply VectorEq.eqb_eq.
  intros x y. split; [apply Byte.byte_dec_bl | apply Byte.byte_dec_lb].
Qed.

Lemma IsInt64_true (x : Z) : - 2 ^ 63 <= x < 2 ^ 63 -> IsInt64 x = true.
Proof.
  intros H. unfold IsInt64. apply andb_true_iff. split.
  - apply Z.leb_le. lia.
  - apply Z.ltb_lt. lia.
Qed.

Lemma IsInt64_false (x : Z) : x < - 2 ^ 63 \/ 2 ^ 63 <= x -> IsInt64 x = false.
Proof.
  intros H. unfold IsInt64. apply andb_false_iff.
  destruct H as [H|H]; [left; apply Z.leb_gt | right; apply Z.ltb_ge]; lia.
Qed.

Lemma popcount_pos (p : positive) : 0 < popcount p.
Proof. induction p; cbn [popcount]; lia. Qed.

Lemma HammingWeight_nonneg (bits : Z) : 0 <= HammingWeight bits.
Proof.
  destruct bits; simpl; try lia. pose proof (popcount_pos p). lia.
Qed.

(** ** The handlers and the predicate *)

Section Claims.

Context {VS : Type}.

Variable rlp_DecodeBytes : bytes -> list bytes + error.
Variable teleporter_ParseMessage : bytes -> TeleporterMessage + error.
Variable Signature_Verify :
  Signature -> UnsignedMessage -> VS -> Z -> Z -> Z -> option error.
Variable ABI_UnpackInput_getVerifiedWarpMessage : bytes -> Z + error.
Variable ABI_UnpackInputIntoInterface_sendWarpMessage :
  bytes -> SendWarpMessageInput + error.
Variable ABI_PackOutput_getBlockchainId : Hash -> bytes + error.
Variable ABI_PackOutput_getVerifiedWarpMessage : WarpMessage -> bool -> bytes + error.
Variable WarpMessengerAddress : Address.
Variable Version : Z.

(** How far a call of [getVerifiedWarpMessage] gets once the base cost is
    paid, the input unpacked, the access-list slots found and decoded, and
    the message at the index parsed: what is left is the signature test,
    the charge per signer, and the decoding of the payload. *)
Lemma getVerifiedWarpMessage_selects
    (accessibleState : AccessibleState VS) (caller addr : Address) (input : bytes)
    (suppliedGas messageIndex : Z) (storageSlots : bytes)
    (signedMessages : list bytes) (signedMessage : bytes) (message : TeleporterMessage) :
  GetVerifiedWarpMessageGasCost <= suppliedGas ->
  ABI_UnpackInput_getVerifiedWarpMessage input = inl messageIndex ->
  GetPredicateStorageSlots (GetStateDB accessibleState) WarpMessengerAddress
    = (Some storageSlots, true) ->
  rlp_DecodeBytes storageSlots = inl signedMessages ->
  0 <= messageIndex < 2 ^ 63 ->
  nth_error signedMessages (Z.to_nat messageIndex) = Some signedMessage ->
  teleporter_ParseMessage signedMessage = inl message ->
  getVerifiedWarpMessage rlp_DecodeBytes teleporter_ParseMessage
    ABI_UnpackInput_getVerifiedWarpMessage ABI_PackOutput_getVerifiedWarpMessage
    WarpMessengerAddress accessibleState caller addr input suppliedGas false
  = let db := GetStateDB accessibleState in
    let remainingGas := suppliedGas - GetVerifiedWarpMessageGasCost in
    match MsgSignature message with
    | OtherSignature _ =>
        Returns (mkCallResult None remainingGas
                   (Some (errors_New "invalid aggregate signature")), db)
    | BitSetSignature signers _ =>
        match deductGas remainingGas
                (uint64_mul GetVerifiedWarpMessageGasCost
                   (HammingWeight (BitsFromBytes signers))) with
        | (_, Some e) => Returns (mkCallResult None 0 (Some e), db)
        | (remainingGas, None) =>
            match Codec_Unmarshal (umPayload (Unsigned message)) with
            | inr e => Returns (mkCallResult None remainingGas (Some e), db)
            | inl (_, warpMessage) =>
                match ABI_PackOutput_getVerifiedWarpMessage warpMessage true with
                | inr e => Returns (mkCallResult None remainingGas (Some e), db)
                | inl packedOutput =>
                    Returns (mkCallResult (Some packedOutput) remainingGas None, db)
                end
            end
        end
    end.
Proof.
  intros Hgas Hunpack Hslots Hrlp Hidx Hnth Hparse.
  unfold getVerifiedWarpMessage, UnpackGetVerifiedWarpMessageInput,
    PackGetVerifiedWarpMessageOutput.
  rewrite (deductGas_enough _ _ Hgas), Hunpack, Hslots, Hrlp.
  rewrite IsInt64_true by lia.
  assert (Hlen : (Z.to_nat messageIndex < List.length signedMessages)%nat).
  { apply nth_error_Some. congruence. }
  assert (Hle : (Z.of_nat (List.length signedMessages) <=? messageIndex) = false).
  { apply Z.leb_gt. lia. }
  cbn [negb]. rewrite Hle.
  rewrite (index_in_range _ _ _ (proj1 Hidx) Hnth), Hparse.
  reflexivity.
Qed.

(** C1 (the charge the code makes). The specification prices a signer at
    1,000 gas. Once a call of [getVerifiedWarpMessage] has selected a message
    with a bit-set signature, the code deducts the base cost of 100,000 a
    second time for every signer (the product taken in [uint64]): a call
    left with less than that runs out of gas, and every call that succeeds
    returns [suppliedGas - 100,000 - 100,000 * signerCount]. *)
Theorem getVerifiedWarpMessage_charges_base_cost_per_signer
    (accessibleState : AccessibleState VS) (caller addr : Address) (input : bytes)
    (suppliedGas messageIndex : Z) (storageSlots : bytes)
    (signedMessages : list bytes) (signedMessage : bytes)
    (message : TeleporterMessage) (signers : bytes) (sig : Vector.t byte 96) :
  GetVerifiedWarpMessageGasCost <= suppliedGas ->
  ABI_UnpackInput_getVerifiedWarpMessage input = inl messageIndex ->
  GetPredicateStorageSlots (GetStateDB accessibleState) WarpMessengerAddress
    = (Some storageSlots, true) ->
  rlp_DecodeBytes storageSlots = inl signedMessages ->
  0 <= messageIndex < 2 ^ 63 ->
  nth_error signedMessages (Z.to_nat messageIndex) = Some signedMessage ->
  teleporter_ParseMessage signedMessage = inl message ->
  MsgSignature message = BitSetSignature signers sig ->
  let signerCount := HammingWeight (BitsFromBytes signers) in
  let charge := (100000 * signerCount) mod 2 ^ 64 in
  let call :=
    getVerifiedWarpMessage rlp_DecodeBytes teleporter_ParseMessage
      ABI_UnpackInput_getVerifiedWarpMessage ABI_PackOutput_getVerifiedWarpMessage
      WarpMessengerAddress accessibleState caller addr input suppliedGas false in
  (suppliedGas - 100000 < charge ->
     call = Returns (mkCallResult None 0 (Some ErrOutOfGas), GetStateDB accessibleState))
  /\ (forall r db, call = Returns (r, db) -> err r = None ->
        remainingGas r = suppliedGas - 100000 - charge).
Proof.
  intros Hgas Hunpack Hslots Hrlp Hidx Hnth Hparse Hsig signerCount charge call.
  subst call.
  rewrite (getVerifiedWarpMessage_selects _ _ _ _ _ _ _ _ _ _
             Hgas Hunpack Hslots Hrlp Hidx Hnth Hparse).
  rewrite Hsig. cbv zeta.
  change (uint64_mul GetVerifiedWarpMessageGasCost (HammingWeight (BitsFromBytes signers)))
    with charge.
  change GetVerifiedWarpMessageGasCost with 100000.
  split.
  - intros Hshort. rewrite (deductGas_short _ _ Hshort). reflexivity.
  - intros r db Hcall Herr.
    unfold deductGas in Hcall.
    destruct (suppliedGas - 100000 <? charge).
    + injection Hcall as <- _. discriminate Herr.
    + destruct (Codec_Unmarshal (umPayload (Unsigned message))) as [[v warpMessage]|e].
      * destruct (ABI_PackOutput_getVerifiedWarpMessage warpMessage true).
        -- injection Hcall as <- _. reflexivity.
        -- injection Hcall as <- _. discriminate Herr.
      * injection Hcall as <- _. discriminate Herr.
Qed.

(** C2 (what the code does in a read-only call). The specification has
    [getBlockchainId] succeed in a read-only context. With enough gas and
    [readOnly] set, the code pays the cost and returns the write-protection
    error and no output. *)
Theorem getBlockchainId_readOnly_is_write_protected
    (accessibleState : AccessibleState VS) (caller addr : Address) (input : bytes)
    (suppliedGas : Z) :
  GetBlockchainIdGasCost <= suppliedGas ->
  getBlockchainId ABI_PackOutput_getBlockchainId
    accessibleState caller addr input suppliedGas true
  = Returns (mkCallResult None (suppliedGas - GetBlockchainIdGasCost)
               (Some ErrWriteProtection),
             GetStateDB accessibleState).
Proof.
  intros Hgas. unfold getBlockchainId.
  rewrite (deductGas_enough _ _ Hgas). reflexivity.
Qed.


(** *** The predicate *)

Lemma verifyMessages_cons
    (predicateContext : PredicateContext VS) (proposer : ProposerVMBlockContext)
    (blob : bytes) (rest : list bytes) :
  verifyMessages teleporter_ParseMessage Signature_Verify predicateContext proposer
    (blob :: rest)
  = match spec_admitBlob teleporter_ParseMessage Signature_Verify
            predicateContext proposer blob with
    | Some e => Some e
    | None =>
        verifyMessages teleporter_ParseMessage Signature_Verify predicateContext
          proposer rest
    end.
Proof.
  cbn [verifyMessages]. unfold spec_admitBlob.
  destruct (teleporter_ParseMessage blob) as [message|e]; [|reflexivity].
  destruct (Hash_eqb (DestinationChainID (Unsigned message))
                     (ChainID (SnowCtx predicateContext))); cbn [negb].
  - unfold WarpQuorumNumerator, WarpQuorumDenominator.
    destruct (Signature_Verify _ _ _ _ 67 100); reflexivity.
  - reflexivity.
Qed.

Lemma verifyMessages_None_iff
    (predicateContext : PredicateContext VS) (proposer : ProposerVMBlockContext)
    (blobs : list bytes) :
  verifyMessages teleporter_ParseMessage Signature_Verify predicateContext proposer blobs
    = None
  <-> Forall (fun blob =>
                spec_admitBlob teleporter_ParseMessage Signature_Verify
                  predicateContext proposer blob = None) blobs.
Proof.
  induction blobs as [|blob rest IH].
  - split; [constructor | reflexivity].
  - rewrite verifyMessages_cons. split.
    + intros H.
      destruct (spec_admitBlob _ _ predicateContext proposer blob) eqn:E; [discriminate|].
      constructor; [assumption | apply IH, H].
    + intros H. inversion H as [|? ? Hblob Hrest]; subst.
      rewrite Hblob. apply IH, Hrest.
Qed.

Lemma verifyMessages_first_failure
    (predicateContext : PredicateContext VS) (proposer : ProposerVMBlockContext)
    (passed : list bytes) (blob : bytes) (later : list bytes) (e : error) :
  Forall (fun b =>
            spec_admitBlob teleporter_ParseMessage Signature_Verify
              predicateContext proposer b = None) passed ->
  spec_admitBlob teleporter_ParseMessage Signature_Verify predicateContext proposer blob
    = Some e ->
  verifyMessages teleporter_ParseMessage Signature_Verify predicateContext proposer
    (passed ++ blob :: later) = Some e.
Proof.
  intros Hpassed Hblob.
  induction Hpassed as [|b passed Hb _ IH].
  - cbn [app]. rewrite verifyMessages_cons, Hblob. reflexivity.
  - cbn [app]. rewrite verifyMessages_cons, Hb. exact IH.
Qed.

Lemma spec_admitBlob_None_iff
    (predicateContext : PredicateContext VS) (proposer : ProposerVMBlockContext)
    (blob : bytes) :
  spec_admitBlob teleporter_ParseMessage Signature_Verify predicateContext proposer blob
    = None
  <-> exists message,
        teleporter_ParseMessage blob = inl message
        /\ DestinationChainID (Unsigned message) = ChainID (SnowCtx predicateContext)
        /\ Signature_Verify (MsgSignature message) (Unsigned message)
             (ValidatorState (SnowCtx predicateContext))
             (PChainHeight proposer) 67 100 = None.
Proof.
  unfold spec_admitBlob. split.
  - destruct (teleporter_ParseMessage blob) as [message|e]; [|discriminate].
    destruct (Hash_eqb _ _) eqn:E; [|discriminate].
    intros Hverify. exists message. apply Hash_eqb_eq in E. auto.
  - intros (message & -> & Hdest & Hverify).
    apply Hash_eqb_eq in Hdest. rewrite Hdest. exact Hverify.
Qed.

Lemma length_zero_iff_nil (bs : bytes) : (List.length bs =? 0)%nat = true <-> bs = [].
Proof.
  destruct bs; cbn; split; intros H; try reflexivity; discriminate.
Qed.

(** C3. [verifyPredicate] follows the stated algorithm. (1) Without a
    proposer VM block context it fails. With one: (2) empty storage slots
    are accepted at once; (3) slots that do not decode as a list of byte
    strings fail the predicate with the decoder's error; (4) the decoded
    blobs are checked in order and the first one that is not passed
    decides the verdict, whatever follows it; (5) the predicate succeeds
    exactly when every blob is passed. (6) A blob is passed exactly when
    it parses, its destination chain is the local chain, and its signature
    verifies at the proposer's P-Chain height with quorum 67/100; (7) a
    parsed message for another chain fails with "wrong chain id" without
    regard to its signature. *)
Theorem verifyPredicate_algorithm
    (predicateContext : PredicateContext VS) (storageSlots : bytes) :
  let verdict :=
    verifyPredicate rlp_DecodeBytes teleporter_ParseMessage Signature_Verify
      predicateContext storageSlots in
  let check :=
    spec_admitBlob teleporter_ParseMessage Signature_Verify predicateContext in
  (ProposerVMBlockCtx predicateContext = None ->
   verdict = Some (errors_New "missing proposer VM block context"))
  /\ (forall proposer,
        ProposerVMBlockCtx predicateContext = Some proposer ->
        (storageSlots = [] -> verdict = None)
        /\ (forall e,
              storageSlots <> [] -> rlp_DecodeBytes storageSlots = inr e ->
              verdict = Some e)
        /\ (forall blobs,
              storageSlots <> [] -> rlp_DecodeBytes storageSlots = inl blobs ->
              (forall passed blob later e,
                 blobs = passed ++ blob :: later ->
                 Forall (fun b => check proposer b = None) passed ->
                 check proposer blob = Some e ->
                 verdict = Some e)
              /\ (verdict = None
                  <-> Forall (fun blob => check proposer blob = None) blobs)))
  /\ (forall proposer blob,
        check proposer blob = None
        <-> exists message,
              teleporter_ParseMessage blob = inl message
              /\ DestinationChainID (Unsigned message)
                 = ChainID (SnowCtx predicateContext)
              /\ Signature_Verify (MsgSignature message) (Unsigned message)
                   (ValidatorState (SnowCtx predicateContext))
                   (PChainHeight proposer) 67 100 = None)
  /\ (forall proposer blob message,
        teleporter_ParseMessage blob = inl message ->
        DestinationChainID (Unsigned message) <> ChainID (SnowCtx predicateContext) ->
        check proposer blob = Some (errors_New "wrong chain id")).
Proof.
  cbv zeta. unfold verifyPredicate.
  split; [| split; [| split]].
  - intros ->. reflexivity.
  - intros proposer ->.
    assert (Hnonempty : storageSlots <> [] ->
                        (List.length storageSlots =? 0)%nat = false).
    { intros Hne. destruct (List.length storageSlots =? 0)%nat eqn:E; [|reflexivity].
      apply length_zero_iff_nil in E. contradiction. }
    split; [| split].
    + intros ->. reflexivity.
    + intros e Hne Hrlp. rewrite (Hnonempty Hne), Hrlp. reflexivity.
    + intros blobs Hne Hrlp. rewrite (Hnonempty Hne), Hrlp. split.
      * intros passed blob later e -> Hpassed Hblob.
        apply verifyMessages_first_failure; assumption.
      * apply verifyMessages_None_iff.
  - intros proposer blob. apply spec_admitBlob_None_iff.
  - intros proposer blob message Hparse Hdest. unfold spec_admitBlob. rewrite Hparse.
    destruct (Hash_eqb _ _) eqn:E; [|reflexivity].
    apply Hash_eqb_eq in E. contradiction.
Qed.


(** *** Gas exhaustion *)

(** C5. Wherever a handler deducts gas and the gas left is less than the
    cost, the call fails with the out-of-gas error, returns no output and
    zero remaining gas, and hands back the state database it was given.
    This holds for [deductGas] itself, for the first deduction of each of
    the three handlers, whatever the other arguments are, and for the
    second deduction of [getVerifiedWarpMessage] (the charge per signer). *)
Theorem gas_exhaustion_consumes_all_gas :
  (forall remaining cost,
     remaining < cost -> deductGas remaining cost = (0, Some ErrOutOfGas))
  /\ (forall (accessibleState : AccessibleState VS) caller addr input suppliedGas readOnly,
        suppliedGas < GetBlockchainIdGasCost ->
        getBlockchainId ABI_PackOutput_getBlockchainId
          accessibleState caller addr input suppliedGas readOnly
        = Returns (mkCallResult None 0 (Some ErrOutOfGas), GetStateDB accessibleState))
  /\ (forall (accessibleState : AccessibleState VS) caller addr input suppliedGas readOnly,
        suppliedGas < GetVerifiedWarpMessageGasCost ->
        getVerifiedWarpMessage rlp_DecodeBytes teleporter_ParseMessage
          ABI_UnpackInput_getVerifiedWarpMessage ABI_PackOutput_getVerifiedWarpMessage
          WarpMessengerAddress accessibleState caller addr input suppliedGas readOnly
        = Returns (mkCallResult None 0 (Some ErrOutOfGas), GetStateDB accessibleState))
  /\ (forall (accessibleState : AccessibleState VS) caller addr input suppliedGas readOnly,
        suppliedGas < SendWarpMessageGasCost ->
        sendWarpMessage ABI_UnpackInputIntoInterface_sendWarpMessage
          WarpMessengerAddress Version
          accessibleState caller addr input suppliedGas readOnly
        = Returns (mkCallResult None 0 (Some ErrOutOfGas), GetStateDB accessibleState))
  /\ (forall (accessibleState : AccessibleState VS) caller addr input suppliedGas
             messageIndex storageSlots signedMessages signedMessage message signers sig,
        GetVerifiedWarpMessageGasCost <= suppliedGas ->
        ABI_UnpackInput_getVerifiedWarpMessage input = inl messageIndex ->
        GetPredicateStorageSlots (GetStateDB accessibleState) WarpMessengerAddress
          = (Some storageSlots, true) ->
        rlp_DecodeBytes storageSlots = inl signedMessages ->
        0 <= messageIndex < 2 ^ 63 ->
        nth_error signedMessages (Z.to_nat messageIndex) = Some signedMessage ->
        teleporter_ParseMessage signedMessage = inl message ->
        MsgSignature message = BitSetSignature signers sig ->
        suppliedGas - GetVerifiedWarpMessageGasCost
          < uint64_mul GetVerifiedWarpMessageGasCost (HammingWeight (BitsFromBytes signers)) ->
        getVerifiedWarpMessage rlp_DecodeBytes teleporter_ParseMessage
          ABI_UnpackInput_getVerifiedWarpMessage ABI_PackOutput_getVerifiedWarpMessage
          WarpMessengerAddress accessibleState caller addr input suppliedGas false
        = Returns (mkCallResult None 0 (Some ErrOutOfGas), GetStateDB accessibleState)).
Proof.
  split; [exact deductGas_short|].
  split; [|split; [|split]].
  - intros st caller addr input suppliedGas readOnly Hshort.
    unfold getBlockchainId. rewrite (deductGas_short _ _ Hshort). reflexivity.
  - intros st caller addr input suppliedGas readOnly Hshort.
    unfold getVerifiedWarpMessage. rewrite (deductGas_short _ _ Hshort). reflexivity.
  - intros st caller addr input suppliedGas readOnly Hshort.
    unfold sendWarpMessage. rewrite (deductGas_short _ _ Hshort). reflexivity.
  - intros st caller addr input suppliedGas messageIndex storageSlots signedMessages
      signedMessage message signers sig
      Hgas Hunpack Hslots Hrlp Hidx Hnth Hparse Hsig Hshort.
    rewrite (getVerifiedWarpMessage_selects _ _ _ _ _ _ _ _ _ _
               Hgas Hunpack Hslots Hrlp Hidx Hnth Hparse).
    rewrite Hsig. cbv zeta. rewrite (deductGas_short _ _ Hshort). reflexivity.
Qed.

(** *** Reading a verified message *)

(** C6. When a call of [getVerifiedWarpMessage] has paid the base cost,
    unpacked its index and decoded the access-list payload, an index that
    does not fit a 64-bit integer, or one that is at least the number of
    messages, makes the call return the error "invalid message index"
    with the gas left after the base deduction; the call does not panic. *)
Theorem getVerifiedWarpMessage_invalid_message_index
    (accessibleState : AccessibleState VS) (caller addr : Address) (input : bytes)
    (suppliedGas messageIndex : Z) (storageSlots : bytes) (signedMessages : list bytes) :
  GetVerifiedWarpMessageGasCost <= suppliedGas ->
  ABI_UnpackInput_getVerifiedWarpMessage input = inl messageIndex ->
  GetPredicateStorageSlots (GetStateDB accessibleState) WarpMessengerAddress
    = (Some storageSlots, true) ->
  rlp_DecodeBytes storageSlots = inl signedMessages ->
  (messageIndex < - 2 ^ 63 \/ 2 ^ 63 <= messageIndex)
  \/ Z.of_nat (List.length signedMessages) <= messageIndex ->
  getVerifiedWarpMessage rlp_DecodeBytes teleporter_ParseMessage
    ABI_UnpackInput_getVerifiedWarpMessage ABI_PackOutput_getVerifiedWarpMessage
    WarpMessengerAddress accessibleState caller addr input suppliedGas false
  = Returns (mkCallResult None (suppliedGas - GetVerifiedWarpMessageGasCost)
               (Some (errors_New "invalid message index")),
             GetStateDB accessibleState).
Proof.
  intros Hgas Hunpack Hslots Hrlp Hindex.
  unfold getVerifiedWarpMessage, UnpackGetVerifiedWarpMessageInput.
  rewrite (deductGas_enough _ _ Hgas), Hunpack, Hslots, Hrlp.
  destruct (IsInt64 messageIndex) eqn:Hint; cbn [negb]; [|reflexivity].
  destruct Hindex as [Hwide | Hbeyond].
  - rewrite (IsInt64_false _ Hwide) in Hint. discriminate.
  - apply Z.leb_le in Hbeyond. rewrite Hbeyond. reflexivity.
Qed.

(** C9. Execution does not verify again. When the message at a valid index
    parses, carries a bit-set signature whose per-signer charge the
    remaining gas covers, and its payload decodes into a warp message that
    packs, the call returns that message with [success = true], whatever
    the destination chain of the message is. No signature verifier is among
    the functions the handler is built from, and the local chain (its
    identifier and its validator state) has no influence on the call: with
    any other snow context the handler returns the same. *)
Theorem getVerifiedWarpMessage_returns_without_reverification
    (accessibleState : AccessibleState VS) (caller addr : Address) (input : bytes)
    (suppliedGas messageIndex : Z) (storageSlots : bytes)
    (signedMessages : list bytes) (signedMessage : bytes)
    (message : TeleporterMessage) (signers : bytes) (sig : Vector.t byte 96)
    (version : Z) (warpMessage : WarpMessage) (packedOutput : bytes) :
  GetVerifiedWarpMessageGasCost <= suppliedGas ->
  ABI_UnpackInput_getVerifiedWarpMessage input = inl messageIndex ->
  GetPredicateStorageSlots (GetStateDB accessibleState) WarpMessengerAddress
    = (Some storageSlots, true) ->
  rlp_DecodeBytes storageSlots = inl signedMessages ->
  0 <= messageIndex < 2 ^ 63 ->
  nth_error signedMessages (Z.to_nat messageIndex) = Some signedMessage ->
  teleporter_ParseMessage signedMessage = inl message ->
  MsgSignature message = BitSetSignature signers sig ->
  uint64_mul GetVerifiedWarpMessageGasCost (HammingWeight (BitsFromBytes signers))
    <= suppliedGas - GetVerifiedWarpMessageGasCost ->
  Codec_Unmarshal (umPayload (Unsigned message)) = inl (version, warpMessage) ->
  PackGetVerifiedWarpMessageOutput ABI_PackOutput_getVerifiedWarpMessage
    {| Message := warpMessage; Success := true |} = inl packedOutput ->
  getVerifiedWarpMessage rlp_DecodeBytes teleporter_ParseMessage
    ABI_UnpackInput_getVerifiedWarpMessage ABI_PackOutput_getVerifiedWarpMessage
    WarpMessengerAddress accessibleState caller addr input suppliedGas false
  = Returns (mkCallResult (Some packedOutput)
               (suppliedGas - GetVerifiedWarpMessageGasCost
                - uint64_mul GetVerifiedWarpMessageGasCost
                    (HammingWeight (BitsFromBytes signers)))
               None,
             GetStateDB accessibleState)
  /\ (forall localChain : SnowContext VS,
        getVerifiedWarpMessage rlp_DecodeBytes teleporter_ParseMessage
          ABI_UnpackInput_getVerifiedWarpMessage ABI_PackOutput_getVerifiedWarpMessage
          WarpMessengerAddress
          (mkAccessibleState localChain (GetStateDB accessibleState)
             (Number accessibleState))
          caller addr input suppliedGas false
        = getVerifiedWarpMessage rlp_DecodeBytes teleporter_ParseMessage
            ABI_UnpackInput_getVerifiedWarpMessage ABI_PackOutput_getVerifiedWarpMessage
            WarpMessengerAddress accessibleState caller addr input suppliedGas false).
Proof.
  intros Hgas Hunpack Hslots Hrlp Hidx Hnth Hparse Hsig Hcharge Hdecode Hpack.
  split; [|intros localChain; reflexivity].
  rewrite (getVerifiedWarpMessage_selects _ _ _ _ _ _ _ _ _ _
             Hgas Hunpack Hslots Hrlp Hidx Hnth Hparse).
  rewrite Hsig. cbv zeta.
  rewrite (deductGas_enough _ _ Hcharge), Hdecode.
  unfold PackGetVerifiedWarpMessageOutput in Hpack. cbn [Message Success] in Hpack.
  rewrite Hpack. reflexivity.
Qed.

(** C10. When the message at a valid index parses but its signature is
    not a bit-set signature, the call fails with "invalid aggregate
    signature" and returns the gas left after the base deduction alone:
    nothing is charged per signer. *)
Theorem getVerifiedWarpMessage_invalid_aggregate_signature
    (accessibleState : AccessibleState VS) (caller addr : Address) (input : bytes)
    (suppliedGas messageIndex : Z) (storageSlots : bytes)
    (signedMessages : list bytes) (signedMessage : bytes)
    (message : TeleporterMessage) (raw : bytes) :
  GetVerifiedWarpMessageGasCost <= suppliedGas ->
  ABI_UnpackInput_getVerifiedWarpMessage input = inl messageIndex ->
  GetPredicateStorageSlots (GetStateDB accessibleState) WarpMessengerAddress
    = (Some storageSlots, true) ->
  rlp_DecodeBytes storageSlots = inl signedMessages ->
  0 <= messageIndex < 2 ^ 63 ->
  nth_error signedMessages (Z.to_nat messageIndex) = Some signedMessage ->
  teleporter_ParseMessage signedMessage = inl message ->
  MsgSignature message = OtherSignature raw ->
  getVerifiedWarpMessage rlp_DecodeBytes teleporter_ParseMessage
    ABI_UnpackInput_getVerifiedWarpMessage ABI_PackOutput_getVerifiedWarpMessage
    WarpMessengerAddress accessibleState caller addr input suppliedGas false
  = Returns (mkCallResult None (suppliedGas - GetVerifiedWarpMessageGasCost)
               (Some (errors_New "invalid aggregate signature")),
             GetStateDB accessibleState).
Proof.
  intros Hgas Hunpack Hslots Hrlp Hidx Hnth Hparse Hsig.
  rewrite (getVerifiedWarpMessage_selects _ _ _ _ _ _ _ _ _ _
             Hgas Hunpack Hslots Hrlp Hidx Hnth Hparse).
  rewrite Hsig. reflexivity.
Qed.


(** *** Sending a message *)

(** A call of [sendWarpMessage] that returns without an error was not
    read-only, had the base cost, unpacked its input and marshalled the
    message; it returns the empty output and the state with one log more. *)
Lemma sendWarpMessage_success_inv
    (accessibleState : AccessibleState VS) (caller addr : Address) (input : bytes)
    (suppliedGas : Z) (readOnly : bool) (r : CallResult) (db' : StateDB) :
  sendWarpMessage ABI_UnpackInputIntoInterface_sendWarpMessage
    WarpMessengerAddress Version
    accessibleState caller addr input suppliedGas readOnly = Returns (r, db') ->
  err r = None ->
  exists inputStruct data,
    readOnly = false
    /\ SendWarpMessageGasCost <= suppliedGas
    /\ ABI_UnpackInputIntoInterface_sendWarpMessage input = inl inputStruct
    /\ Codec_Marshal Version
         {| OriginChainId := ChainID (GetSnowContext accessibleState);
            OriginSenderAddress := Address_Hash caller;
            DestinationChainId := inDestinationChainId inputStruct;
            DestinationAddress := inDestinationAddress inputStruct;
            Payload := inPayload inputStruct |} = inl data
    /\ r = mkCallResult (Some []) (suppliedGas - SendWarpMessageGasCost) None
    /\ db' = AddLog (GetStateDB accessibleState) WarpMessengerAddress
               [ HexToHash SubmitMessageEventID;
                 ChainID (GetSnowContext accessibleState);
                 inDestinationChainId inputStruct ]
               data (Uint64 (Number accessibleState)).
Proof.
  unfold sendWarpMessage, UnpackSendWarpMessageInput, deductGas.
  destruct (suppliedGas <? SendWarpMessageGasCost) eqn:Hgas.
  { intros [= <- _] Herr. discriminate Herr. }
  apply Z.ltb_ge in Hgas.
  destruct readOnly.
  { intros [= <- _] Herr. discriminate Herr. }
  destruct (ABI_UnpackInputIntoInterface_sendWarpMessage input) as [inputStruct|e].
  2: { intros [= <- _] Herr. discriminate Herr. }
  destruct (Codec_Marshal Version _) as [data|e] eqn:Hdata.
  2: { intros [= <- _] Herr. discriminate Herr. }
  intros [= <- <-] _.
  exists inputStruct, data. repeat split; assumption.
Qed.

(** The constant the code puts first among the topics is not the Keccak
    hash of the signature of the event that the contract's ABI declares. *)
Lemma SubmitMessageEventID_is_not_the_SendWarpMessage_hash :
  HexToHash SubmitMessageEventID <> Keccak256Hash SendWarpMessageEventSignature.
Proof.
  intros H. apply Hash_eqb_eq in H. vm_compute in H. discriminate H.
Qed.

(** C4 (the log the code emits). A successful [sendWarpMessage] appends
    exactly one log, addressed to the precompile, whose data is the
    marshalled message and whose topics are the constant
    [SubmitMessageEventID], the origin chain and the destination chain.
    The specification names the first topic as the Keccak hash of
    "SendWarpMessage(bytes32,bytes32,bytes32,bytes)"; the constant is a
    different value. *)
Theorem sendWarpMessage_first_topic_is_SubmitMessageEventID
    (accessibleState : AccessibleState VS) (caller addr : Address) (input : bytes)
    (suppliedGas : Z) (readOnly : bool) (r : CallResult) (db' : StateDB) :
  sendWarpMessage ABI_UnpackInputIntoInterface_sendWarpMessage
    WarpMessengerAddress Version
    accessibleState caller addr input suppliedGas readOnly = Returns (r, db') ->
  err r = None ->
  exists inputStruct data,
    ABI_UnpackInputIntoInterface_sendWarpMessage input = inl inputStruct
    /\ Codec_Marshal Version
         {| OriginChainId := ChainID (GetSnowContext accessibleState);
            OriginSenderAddress := Address_Hash caller;
            DestinationChainId := inDestinationChainId inputStruct;
            DestinationAddress := inDestinationAddress inputStruct;
            Payload := inPayload inputStruct |} = inl data
    /\ Logs db'
       = Logs (GetStateDB accessibleState)
         ++ [ {| LogAddress := WarpMessengerAddress;
                 Topics := [ HexToHash SubmitMessageEventID;
                             ChainID (GetSnowContext accessibleState);
                             inDestinationChainId inputStruct ];
                 Data := data;
                 BlockNumber := Uint64 (Number accessibleState) |} ]
    /\ HexToHash SubmitMessageEventID <> Keccak256Hash SendWarpMessageEventSignature.
Proof.
  intros Hcall Herr.
  destruct (sendWarpMessage_success_inv _ _ _ _ _ _ _ _ Hcall Herr)
    as (inputStruct & data & _ & _ & Hunpack & Hdata & _ & ->).
  exists inputStruct, data.
  repeat split; try assumption.
  exact SubmitMessageEventID_is_not_the_SendWarpMessage_hash.
Qed.

Lemma sendWarpMessage_with_Codec_Marshal
    (accessibleState : AccessibleState VS) (caller addr : Address) (input : bytes)
    (suppliedGas : Z) (readOnly : bool) :
  sendWarpMessage_with ABI_UnpackInputIntoInterface_sendWarpMessage
    WarpMessengerAddress Version Codec_Marshal
    accessibleState caller addr input suppliedGas readOnly
  = sendWarpMessage ABI_UnpackInputIntoInterface_sendWarpMessage
      WarpMessengerAddress Version
      accessibleState caller addr input suppliedGas readOnly.
Proof. reflexivity. Qed.



(** A call with the base cost, outside a read-only context, on an input
    that unpacks to a payload short enough for the codec, succeeds. *)
Lemma sendWarpMessage_succeeds
    (accessibleState : AccessibleState VS) (caller addr : Address) (input : bytes)
    (suppliedGas : Z) (inputStruct : SendWarpMessageInput) :
  SendWarpMessageGasCost <= suppliedGas ->
  ABI_UnpackInputIntoInterface_sendWarpMessage input = inl inputStruct ->
  Z.of_nat (List.length (inPayload inputStruct)) < 2 ^ 32 ->
  exists db',
    sendWarpMessage ABI_UnpackInputIntoInterface_sendWarpMessage
      WarpMessengerAddress Version
      accessibleState caller addr input suppliedGas false
    = Returns (mkCallResult (Some []) (suppliedGas - SendWarpMessageGasCost) None, db').
Proof.
  intros Hgas Hunpack Hlen.
  unfold sendWarpMessage, UnpackSendWarpMessageInput.
  rewrite (deductGas_enough _ _ Hgas), Hunpack.
  destruct (Codec_Marshal_ok Version
              {| OriginChainId := ChainID (GetSnowContext accessibleState);
                 OriginSenderAddress := Address_Hash caller;
                 DestinationChainId := inDestinationChainId inputStruct;
                 DestinationAddress := inDestinationAddress inputStruct;
                 Payload := inPayload inputStruct |} Hlen) as [data Hdata].
  rewrite Hdata. eexists. reflexivity.
Qed.

(** *** Configuration equality *)

Lemma BigNumEqual_eq (a b : option Z) : BigNumEqual a b = true <-> a = b.
Proof.
  destruct a as [x|], b as [y|]; cbn; split; intros H;
    try reflexivity; try discriminate.
  - apply Z.eqb_eq in H. congruence.
  - injection H as ->. apply Z.eqb_refl.
Qed.

(** C8. [Equal] on two warp messenger configs holds exactly when their
    activation timestamps and their disabled flags agree; it is false
    against the config of any other precompile. The two constructors build
    the same values as the struct literals, so a config equals one built
    another way with the same fields, and an enabling config never equals a
    disabling one. *)
Theorem WarpMessengerConfig_Equal_is_structural :
  (forall c other : WarpMessengerConfig,
     WarpMessengerConfig_Equal c (IsWarpMessengerConfig other) = true
     <-> BlockTimestamp (Upgradeable c) = BlockTimestamp (Upgradeable other)
         /\ Disable (Upgradeable c) = Disable (Upgradeable other))
  /\ (forall (c : WarpMessengerConfig) kind u,
        WarpMessengerConfig_Equal c (OtherPrecompileConfig kind u) = false)
  /\ (forall blockTimestamp,
        WarpMessengerConfig_Equal (NewWarpMessengerConfig blockTimestamp)
          (IsWarpMessengerConfig
             {| Upgradeable := {| BlockTimestamp := blockTimestamp; Disable := false |} |})
        = true)
  /\ (forall blockTimestamp,
        WarpMessengerConfig_Equal (NewDisableWarpMessengerConfig blockTimestamp)
          (IsWarpMessengerConfig
             {| Upgradeable := {| BlockTimestamp := blockTimestamp; Disable := true |} |})
        = true)
  /\ (forall t1 t2,
        WarpMessengerConfig_Equal (NewWarpMessengerConfig t1)
          (IsWarpMessengerConfig (NewDisableWarpMessengerConfig t2)) = false).
Proof.
  assert (Hiff : forall c other : WarpMessengerConfig,
             WarpMessengerConfig_Equal c (IsWarpMessengerConfig other) = true
             <-> BlockTimestamp (Upgradeable c) = BlockTimestamp (Upgradeable other)
                 /\ Disable (Upgradeable c) = Disable (Upgradeable other)).
  { intros c other. unfold WarpMessengerConfig_Equal, UpgradeableConfig_Equal.
    rewrite andb_true_iff, BigNumEqual_eq, Bool.eqb_true_iff. tauto. }
  split; [exact Hiff|].
  split; [reflexivity|].
  split; [intros ts; apply Hiff; split; reflexivity|].
  split; [intros ts; apply Hiff; split; reflexivity|].
  intros t1 t2. reflexivity.
Qed.


(** *** Further properties of the handlers *)

Lemma index_total {A : Type} (l : list A) (i : Z) :
  0 <= i < Z.of_nat (List.length l) -> exists a, index l i = Returns a.
Proof.
  intros Hi.
  destruct (nth_error l (Z.to_nat i)) as [a|] eqn:Hnth.
  - exists a. apply index_in_range; [lia | assumption].
  - apply nth_error_None in Hnth. lia.
Qed.

(** X1. [getVerifiedWarpMessage] never panics: when the ABI hands over the
    index as the unsigned integer it declares, every call returns, with
    whatever state, input, gas and read-only flag. The one indexing of the
    decoded messages is guarded by the two index tests before it. *)
Theorem getVerifiedWarpMessage_never_panics
    (accessibleState : AccessibleState VS) (caller addr : Address) (input : bytes)
    (suppliedGas : Z) (readOnly : bool) :
  (forall messageIndex,
     ABI_UnpackInput_getVerifiedWarpMessage input = inl messageIndex ->
     0 <= messageIndex) ->
  exists r db,
    getVerifiedWarpMessage rlp_DecodeBytes teleporter_ParseMessage
      ABI_UnpackInput_getVerifiedWarpMessage ABI_PackOutput_getVerifiedWarpMessage
      WarpMessengerAddress accessibleState caller addr input suppliedGas readOnly
    = Returns (r, db).
Proof.
  intros Hunsigned.
  unfold getVerifiedWarpMessage, UnpackGetVerifiedWarpMessageInput.
  destruct (deductGas suppliedGas GetVerifiedWarpMessageGasCost) as [gas [e|]];
    [eauto|].
  destruct readOnly; [eauto|].
  destruct (ABI_UnpackInput_getVerifiedWarpMessage input) as [messageIndex|e];
    [|eauto].
  specialize (Hunsigned messageIndex eq_refl).
  destruct (GetPredicateStorageSlots (GetStateDB accessibleState) WarpMessengerAddress)
    as [[storageSlots|] [|]]; try solve [eauto].
  destruct (rlp_DecodeBytes storageSlots) as [signedMessages|e]; [|eauto].
  destruct (negb (IsInt64 messageIndex)); [eauto|].
  destruct (Z.of_nat (List.length signedMessages) <=? messageIndex) eqn:Hle; [eauto|].
  apply Z.leb_gt in Hle.
  destruct (index_total signedMessages messageIndex ltac:(lia)) as [signedMessage ->].
  destruct (teleporter_ParseMessage signedMessage) as [message|e]; [|eauto].
  destruct (MsgSignature message) as [signers sig|raw]; [|eauto].
  destruct (deductGas gas _) as [gas' [e|]]; [eauto|].
  destruct (Codec_Unmarshal _) as [[version warpMessage]|e]; [|eauto].
  destruct (PackGetVerifiedWarpMessageOutput _ _); eauto.
Qed.

(** X2. The two handlers that are priced as mutating reject a read-only
    call: with the base cost paid they return the write-protection error,
    the gas left after the deduction and no output, and the state database
    is the one they were given. *)
Theorem mutating_handlers_are_write_protected
    (accessibleState : AccessibleState VS) (caller addr : Address) (input : bytes)
    (suppliedGas : Z) :
  (GetVerifiedWarpMessageGasCost <= suppliedGas ->
   getVerifiedWarpMessage rlp_DecodeBytes teleporter_ParseMessage
     ABI_UnpackInput_getVerifiedWarpMessage ABI_PackOutput_getVerifiedWarpMessage
     WarpMessengerAddress accessibleState caller addr input suppliedGas true
   = Returns (mkCallResult None (suppliedGas - GetVerifiedWarpMessageGasCost)
                (Some ErrWriteProtection),
              GetStateDB accessibleState))
  /\ (SendWarpMessageGasCost <= suppliedGas ->
      sendWarpMessage ABI_UnpackInputIntoInterface_sendWarpMessage
        WarpMessengerAddress Version
        accessibleState caller addr input suppliedGas true
      = Returns (mkCallResult None (suppliedGas - SendWarpMessageGasCost)
                   (Some ErrWriteProtection),
                 GetStateDB accessibleState)).
Proof.
  split; intros Hgas.
  - unfold getVerifiedWarpMessage. rewrite (deductGas_enough _ _ Hgas). reflexivity.
  - unfold sendWarpMessage. rewrite (deductGas_enough _ _ Hgas). reflexivity.
Qed.

(** X3. Without predicate data for the precompile's address (no entry, or
    a nil slice), [getVerifiedWarpMessage] returns the error "missing
    access list storage slots from precompile during execution" and the
    gas left after the base deduction. *)
Theorem getVerifiedWarpMessage_missing_storage_slots
    (accessibleState : AccessibleState VS) (caller addr : Address) (input : bytes)
    (suppliedGas messageIndex : Z) :
  GetVerifiedWarpMessageGasCost <= suppliedGas ->
  ABI_UnpackInput_getVerifiedWarpMessage input = inl messageIndex ->
  snd (GetPredicateStorageSlots (GetStateDB accessibleState) WarpMessengerAddress) = false
  \/ fst (GetPredicateStorageSlots (GetStateDB accessibleState) WarpMessengerAddress) = None ->
  getVerifiedWarpMessage rlp_DecodeBytes teleporter_ParseMessage
    ABI_UnpackInput_getVerifiedWarpMessage ABI_PackOutput_getVerifiedWarpMessage
    WarpMessengerAddress accessibleState caller addr input suppliedGas false
  = Returns (mkCallResult None (suppliedGas - GetVerifiedWarpMessageGasCost)
               (Some (errors_New
                        "missing access list storage slots from precompile during execution")),
             GetStateDB accessibleState).
Proof.
  intros Hgas Hunpack Hmissing.
  unfold getVerifiedWarpMessage, UnpackGetVerifiedWarpMessageInput.
  rewrite (deductGas_enough _ _ Hgas), Hunpack.
  destruct (GetPredicateStorageSlots (GetStateDB accessibleState) WarpMessengerAddress)
    as [[storageSlots|] [|]]; cbn [fst snd] in Hmissing; try reflexivity.
  destruct Hmissing; discriminate.
Qed.


(** *** Gas and state across all outcomes *)

Lemma uint64_mul_nonneg (a b : Z) : 0 <= uint64_mul a b.
Proof.
  unfold uint64_mul, uint64_modulus. apply Z.mod_pos_bound. lia.
Qed.

Lemma deductGas_bounds (suppliedGas requiredGas gas : Z) (e : option error) :
  0 <= requiredGas ->
  0 <= suppliedGas ->
  deductGas suppliedGas requiredGas = (gas, e) ->
  0 <= gas <= suppliedGas /\ (e = None -> gas = suppliedGas - requiredGas).
Proof.
  intros Hcost Hsupplied. unfold deductGas.
  destruct (suppliedGas <? requiredGas) eqn:E; intros [= <- <-].
  - split; [lia | discriminate].
  - apply Z.ltb_ge in E. split; [lia | reflexivity].
Qed.

(** X4. Whatever a handler returns, the remaining gas lies between zero
    and the gas supplied: no path hands back more gas than it was given,
    and none a negative amount. *)
Theorem handlers_return_gas_within_supplied
    (accessibleState : AccessibleState VS) (caller addr : Address) (input : bytes)
    (suppliedGas : Z) (readOnly : bool) :
  0 <= suppliedGas ->
  (forall r db,
     getBlockchainId ABI_PackOutput_getBlockchainId
       accessibleState caller addr input suppliedGas readOnly = Returns (r, db) ->
     0 <= remainingGas r <= suppliedGas)
  /\ (forall r db,
        getVerifiedWarpMessage rlp_DecodeBytes teleporter_ParseMessage
          ABI_UnpackInput_getVerifiedWarpMessage ABI_PackOutput_getVerifiedWarpMessage
          WarpMessengerAddress accessibleState caller addr input suppliedGas readOnly
        = Returns (r, db) ->
        0 <= remainingGas r <= suppliedGas)
  /\ (forall r db,
        sendWarpMessage ABI_UnpackInputIntoInterface_sendWarpMessage
          WarpMessengerAddress Version
          accessibleState caller addr input suppliedGas readOnly = Returns (r, db) ->
        0 <= remainingGas r <= suppliedGas).
Proof.
  intros Hsupplied.
  split; [|split]; intros r db.
  - unfold getBlockchainId.
    destruct (deductGas suppliedGas GetBlockchainIdGasCost) as [gas e] eqn:Hgas.
    apply deductGas_bounds in Hgas; [|unfold GetBlockchainIdGasCost; lia|assumption].
    destruct e; [intros [= <- _]; cbn; lia|].
    destruct readOnly; [intros [= <- _]; cbn; lia|].
    destruct (PackGetBlockchainIdOutput _ _); intros [= <- _]; cbn; lia.
  - unfold getVerifiedWarpMessage.
    destruct (deductGas suppliedGas GetVerifiedWarpMessageGasCost) as [gas e] eqn:Hgas.
    apply deductGas_bounds in Hgas;
      [|unfold GetVerifiedWarpMessageGasCost; lia|assumption].
    destruct e; [intros [= <- _]; cbn; lia|].
    destruct readOnly; [intros [= <- _]; cbn; lia|].
    destruct (UnpackGetVerifiedWarpMessageInput _ input) as [inputIndex [e|]];
      [intros [= <- _]; cbn; lia|].
    destruct (GetPredicateStorageSlots (GetStateDB accessibleState) WarpMessengerAddress)
      as [[storageSlots|] [|]]; try (intros [= <- _]; cbn; lia).
    destruct (rlp_DecodeBytes storageSlots) as [signedMessages|e];
      [|intros [= <- _]; cbn; lia].
    destruct (negb (IsInt64 inputIndex)); [intros [= <- _]; cbn; lia|].
    destruct (Z.of_nat (List.length signedMessages) <=? inputIndex);
      [intros [= <- _]; cbn; lia|].
    destruct (index signedMessages inputIndex) as [signedMessage|msg]; [|discriminate].
    destruct (teleporter_ParseMessage signedMessage) as [message|e];
      [|intros [= <- _]; cbn; lia].
    destruct (MsgSignature message) as [signers sig|raw];
      [|intros [= <- _]; cbn; lia].
    destruct (deductGas gas _) as [gas' e] eqn:Hgas'.
    apply deductGas_bounds in Hgas'; [|apply uint64_mul_nonneg|lia].
    destruct e; [intros [= <- _]; cbn; lia|].
    destruct (Codec_Unmarshal _) as [[version warpMessage]|e];
      [|intros [= <- _]; cbn; lia].
    destruct (PackGetVerifiedWarpMessageOutput _ _); intros [= <- _]; cbn; lia.
  - unfold sendWarpMessage.
    destruct (deductGas suppliedGas SendWarpMessageGasCost) as [gas e] eqn:Hgas.
    apply deductGas_bounds in Hgas; [|unfold SendWarpMessageGasCost; lia|assumption].
    destruct e; [intros [= <- _]; cbn; lia|].
    destruct readOnly; [intros [= <- _]; cbn; lia|].
    destruct (UnpackSendWarpMessageInput _ input) as [inputStruct [e|]];
      [intros [= <- _]; cbn; lia|].
    destruct (Codec_Marshal Version _); intros [= <- _]; cbn; lia.
Qed.

(** X5. No partial effects. [getBlockchainId] and [getVerifiedWarpMessage]
    hand back the state database they were given, whatever the outcome.
    [sendWarpMessage] does so whenever it returns an error; when it
    succeeds, the new state has the logs of the old one followed by exactly
    one more, and the same predicate storage slots. *)
Theorem handlers_change_state_only_by_one_log_on_success
    (accessibleState : AccessibleState VS) (caller addr : Address) (input : bytes)
    (suppliedGas : Z) (readOnly : bool) (r : CallResult) (db : StateDB) :
  (getBlockchainId ABI_PackOutput_getBlockchainId
     accessibleState caller addr input suppliedGas readOnly = Returns (r, db) ->
   db = GetStateDB accessibleState)
  /\ (getVerifiedWarpMessage rlp_DecodeBytes teleporter_ParseMessage
        ABI_UnpackInput_getVerifiedWarpMessage ABI_PackOutput_getVerifiedWarpMessage
        WarpMessengerAddress accessibleState caller addr input suppliedGas readOnly
      = Returns (r, db) ->
      db = GetStateDB accessibleState)
  /\ (sendWarpMessage ABI_UnpackInputIntoInterface_sendWarpMessage
        WarpMessengerAddress Version
        accessibleState caller addr input suppliedGas readOnly = Returns (r, db) ->
      (err r <> None -> db = GetStateDB accessibleState)
      /\ (err r = None ->
          GetPredicateStorageSlots db = GetPredicateStorageSlots (GetStateDB accessibleState)
          /\ exists log,
               Logs db = Logs (GetStateDB accessibleState) ++ [log]
               /\ LogAddress log = WarpMessengerAddress)).
Proof.
  split; [|split].
  - unfold getBlockchainId.
    destruct (deductGas suppliedGas GetBlockchainIdGasCost) as [gas [e|]];
      [intros [= _ <-]; reflexivity|].
    destruct readOnly; [intros [= _ <-]; reflexivity|].
    destruct (PackGetBlockchainIdOutput _ _); intros [= _ <-]; reflexivity.
  - unfold getVerifiedWarpMessage.
    destruct (deductGas suppliedGas GetVerifiedWarpMessageGasCost) as [gas [e|]];
      [intros [= _ <-]; reflexivity|].
    destruct readOnly; [intros [= _ <-]; reflexivity|].
    destruct (UnpackGetVerifiedWarpMessageInput _ input) as [inputIndex [e|]];
      [intros [= _ <-]; reflexivity|].
    destruct (GetPredicateStorageSlots (GetStateDB accessibleState) WarpMessengerAddress)
      as [[storageSlots|] [|]]; try (intros [= _ <-]; reflexivity).
    destruct (rlp_DecodeBytes storageSlots) as [signedMessages|e];
      [|intros [= _ <-]; reflexivity].
    destruct (negb (IsInt64 inputIndex)); [intros [= _ <-]; reflexivity|].
    destruct (Z.of_nat (List.length signedMessages) <=? inputIndex);
      [intros [= _ <-]; reflexivity|].
    destruct (index signedMessages inputIndex) as [signedMessage|msg]; [|discriminate].
    destruct (teleporter_ParseMessage signedMessage) as [message|e];
      [|intros [= _ <-]; reflexivity].
    destruct (MsgSignature message) as [signers sig|raw];
      [|intros [= _ <-]; reflexivity].
    destruct (deductGas gas _) as [gas' [e|]]; [intros [= _ <-]; reflexivity|].
    destruct (Codec_Unmarshal _) as [[version warpMessage]|e];
      [|intros [= _ <-]; reflexivity].
    destruct (PackGetVerifiedWarpMessageOutput _ _); intros [= _ <-]; reflexivity.
  - intros Hcall. split.
    + revert Hcall. unfold sendWarpMessage.
      destruct (deductGas suppliedGas SendWarpMessageGasCost) as [gas [e|]];
        [intros [= _ <-]; reflexivity|].
      destruct readOnly; [intros [= _ <-]; reflexivity|].
      destruct (UnpackSendWarpMessageInput _ input) as [inputStruct [e|]];
        [intros [= _ <-]; reflexivity|].
      destruct (Codec_Marshal Version _); [|intros [= _ <-]; reflexivity].
      intros [= <- _] Herr. cbn in Herr. contradiction.
    + intros Herr.
      destruct (sendWarpMessage_success_inv _ _ _ _ _ _ _ _ Hcall Herr)
        as (inputStruct & data & _ & _ & _ & _ & _ & ->).
      split; [reflexivity|]. eexists. split; reflexivity.
Qed.


(** *** What a successful call tells *)

Lemma index_Returns_inv {A : Type} (l : list A) (i : Z) (a : A) :
  index l i = Returns a -> 0 <= i /\ nth_error l (Z.to_nat i) = Some a.
Proof.
  unfold index.
  destruct (i <? 0) eqn:E1; [discriminate|].
  destruct (Z.of_nat (List.length l) <=? i); [discriminate|].
  cbn [orb]. apply Z.ltb_ge in E1.
  destruct (nth_error l (Z.to_nat i)); [|discriminate].
  intros [= <-]. auto.
Qed.

(** X6. A call of [getVerifiedWarpMessage] that returns without an error
    was not read-only and had the base cost; its index selected a message
    of the decoded payload that parsed and carried a bit-set signature; the
    output is the packing of the warp message decoded from that message's
    payload together with [success = true] (a successful call never
    reports [false]); and the gas left is the gas supplied less the base
    cost and the charge for the signers. *)
Theorem getVerifiedWarpMessage_success_inv
    (accessibleState : AccessibleState VS) (caller addr : Address) (input : bytes)
    (suppliedGas : Z) (readOnly : bool) (r : CallResult) (db : StateDB) :
  getVerifiedWarpMessage rlp_DecodeBytes teleporter_ParseMessage
    ABI_UnpackInput_getVerifiedWarpMessage ABI_PackOutput_getVerifiedWarpMessage
    WarpMessengerAddress accessibleState caller addr input suppliedGas readOnly
  = Returns (r, db) ->
  err r = None ->
  exists messageIndex storageSlots signedMessages signedMessage message signers sig
         version warpMessage packedOutput,
    readOnly = false
    /\ GetVerifiedWarpMessageGasCost <= suppliedGas
    /\ ABI_UnpackInput_getVerifiedWarpMessage input = inl messageIndex
    /\ GetPredicateStorageSlots (GetStateDB accessibleState) WarpMessengerAddress
       = (Some storageSlots, true)
    /\ rlp_DecodeBytes storageSlots = inl signedMessages
    /\ 0 <= messageIndex < Z.of_nat (List.length signedMessages)
    /\ nth_error signedMessages (Z.to_nat messageIndex) = Some signedMessage
    /\ teleporter_ParseMessage signedMessage = inl message
    /\ MsgSignature message = BitSetSignature signers sig
    /\ Codec_Unmarshal (umPayload (Unsigned message)) = inl (version, warpMessage)
    /\ ABI_PackOutput_getVerifiedWarpMessage warpMessage true = inl packedOutput
    /\ ret r = Some packedOutput
    /\ remainingGas r
       = suppliedGas - GetVerifiedWarpMessageGasCost
         - uint64_mul GetVerifiedWarpMessageGasCost (HammingWeight (BitsFromBytes signers)).
Proof.
  unfold getVerifiedWarpMessage, UnpackGetVerifiedWarpMessageInput,
    PackGetVerifiedWarpMessageOutput, deductGas.
  destruct (suppliedGas <? GetVerifiedWarpMessageGasCost) eqn:Hgas;
    [intros [= <- _] Herr; discriminate Herr|].
  apply Z.ltb_ge in Hgas.
  destruct readOnly; [intros [= <- _] Herr; discriminate Herr|].
  destruct (ABI_UnpackInput_getVerifiedWarpMessage input) as [messageIndex|e] eqn:Hunpack;
    [|intros [= <- _] Herr; discriminate Herr].
  destruct (GetPredicateStorageSlots (GetStateDB accessibleState) WarpMessengerAddress)
    as [[storageSlots|] [|]] eqn:Hslots;
    try (intros [= <- _] Herr; discriminate Herr).
  destruct (rlp_DecodeBytes storageSlots) as [signedMessages|e] eqn:Hrlp;
    [|intros [= <- _] Herr; discriminate Herr].
  destruct (negb (IsInt64 messageIndex)); [intros [= <- _] Herr; discriminate Herr|].
  destruct (Z.of_nat (List.length signedMessages) <=? messageIndex) eqn:Hle;
    [intros [= <- _] Herr; discriminate Herr|].
  apply Z.leb_gt in Hle.
  destruct (index signedMessages messageIndex) as [signedMessage|msg] eqn:Hindex;
    [|discriminate].
  apply index_Returns_inv in Hindex. destruct Hindex as [Hnonneg Hnth].
  destruct (teleporter_ParseMessage signedMessage) as [message|e] eqn:Hparse;
    [|intros [= <- _] Herr; discriminate Herr].
  destruct (MsgSignature message) as [signers sig|raw] eqn:Hsig;
    [|intros [= <- _] Herr; discriminate Herr].
  cbv zeta.
  destruct (_ <? uint64_mul _ _); [intros [= <- _] Herr; discriminate Herr|].
  destruct (Codec_Unmarshal _) as [[version warpMessage]|e] eqn:Hdecode;
    [|intros [= <- _] Herr; discriminate Herr].
  cbn [Message Success].
  destruct (ABI_PackOutput_getVerifiedWarpMessage warpMessage true)
    as [packedOutput|e] eqn:Hpack;
    [|intros [= <- _] Herr; discriminate Herr].
  intros [= <- _] _.
  exists messageIndex, storageSlots, signedMessages, signedMessage, message, signers, sig,
    version, warpMessage, packedOutput.
  cbn [ret remainingGas]. repeat split; try assumption; try reflexivity; lia.
Qed.

(** X7. When [sendWarpMessage] and [getBlockchainId] succeed. Each of them
    returns without an error exactly when the call is not read-only, the
    gas supplied covers the cost, and (for [sendWarpMessage]) the input
    unpacks and the message marshals, or (for [getBlockchainId]) the chain
    identifier packs; the result is then the empty output, or the packed
    identifier, with the gas supplied less the cost. *)
Theorem sendWarpMessage_and_getBlockchainId_succeed_iff
    (accessibleState : AccessibleState VS) (caller addr : Address) (input : bytes)
    (suppliedGas : Z) (readOnly : bool) (r : CallResult) (db : StateDB) :
  ((sendWarpMessage ABI_UnpackInputIntoInterface_sendWarpMessage
      WarpMessengerAddress Version
      accessibleState caller addr input suppliedGas readOnly = Returns (r, db)
    /\ err r = None)
   <-> exists inputStruct data,
         readOnly = false
         /\ SendWarpMessageGasCost <= suppliedGas
         /\ ABI_UnpackInputIntoInterface_sendWarpMessage input = inl inputStruct
         /\ Codec_Marshal Version
              {| OriginChainId := ChainID (GetSnowContext accessibleState);
                 OriginSenderAddress := Address_Hash caller;
                 DestinationChainId := inDestinationChainId inputStruct;
                 DestinationAddress := inDestinationAddress inputStruct;
                 Payload := inPayload inputStruct |} = inl data
         /\ r = mkCallResult (Some []) (suppliedGas - SendWarpMessageGasCost) None
         /\ db = AddLog (GetStateDB accessibleState) WarpMessengerAddress
                   [ HexToHash SubmitMessageEventID;
                     ChainID (GetSnowContext accessibleState);
                     inDestinationChainId inputStruct ]
                   data (Uint64 (Number accessibleState)))
  /\ ((getBlockchainId ABI_PackOutput_getBlockchainId
         accessibleState caller addr input suppliedGas readOnly = Returns (r, db)
       /\ err r = None)
      <-> exists packedOutput,
            readOnly = false
            /\ GetBlockchainIdGasCost <= suppliedGas
            /\ ABI_PackOutput_getBlockchainId (ChainID (GetSnowContext accessibleState))
               = inl packedOutput
            /\ r = mkCallResult (Some packedOutput)
                     (suppliedGas - GetBlockchainIdGasCost) None
            /\ db = GetStateDB accessibleState).
Proof.
  split; split.
  - intros [Hcall Herr].
    destruct (sendWarpMessage_success_inv _ _ _ _ _ _ _ _ Hcall Herr)
      as (inputStruct & data & H).
    exists inputStruct, data. exact H.
  - intros (inputStruct & data & -> & Hgas & Hunpack & Hdata & -> & ->).
    split; [|reflexivity].
    unfold sendWarpMessage, UnpackSendWarpMessageInput.
    rewrite (deductGas_enough _ _ Hgas), Hunpack, Hdata. reflexivity.
  - intros [Hcall Herr]. revert Hcall Herr.
    unfold getBlockchainId, PackGetBlockchainIdOutput, deductGas.
    destruct (suppliedGas <? GetBlockchainIdGasCost) eqn:Hgas;
      [intros [= <- _] Herr; discriminate Herr|].
    apply Z.ltb_ge in Hgas.
    destruct readOnly; [intros [= <- _] Herr; discriminate Herr|].
    destruct (ABI_PackOutput_getBlockchainId _) as [packedOutput|e];
      [|intros [= <- _] Herr; discriminate Herr].
    intros [= <- <-] _. exists packedOutput. auto.
  - intros (packedOutput & -> & Hgas & Hpack & -> & ->).
    split; [|reflexivity].
    unfold getBlockchainId, PackGetBlockchainIdOutput.
    rewrite (deductGas_enough _ _ Hgas), Hpack. reflexivity.
Qed.

(** *** From the predicate to execution *)

(** X8. The predicate and the handler read the same payload. When
    [verifyPredicate] has accepted non-empty storage slots and the state
    database holds these slots for the precompile, the slots decode, and a
    call of [getVerifiedWarpMessage] with the base cost and an index inside
    the decoded list cannot fail in decoding the list or in parsing the
    message: it selects a message that parses, that is addressed to the
    chain of the predicate context and whose signature verified at the
    proposer's height with quorum 67/100, and goes on to the signature
    test, the charge per signer and the decoding of the payload. *)
Theorem getVerifiedWarpMessage_after_verifyPredicate
    (predicateContext : PredicateContext VS) (proposer : ProposerVMBlockContext)
    (storageSlots : bytes)
    (accessibleState : AccessibleState VS) (caller addr : Address) (input : bytes)
    (suppliedGas messageIndex : Z) :
  ProposerVMBlockCtx predicateContext = Some proposer ->
  storageSlots <> [] ->
  verifyPredicate rlp_DecodeBytes teleporter_ParseMessage Signature_Verify
    predicateContext storageSlots = None ->
  GetPredicateStorageSlots (GetStateDB accessibleState) WarpMessengerAddress
    = (Some storageSlots, true) ->
  GetVerifiedWarpMessageGasCost <= suppliedGas ->
  ABI_UnpackInput_getVerifiedWarpMessage input = inl messageIndex ->
  exists signedMessages,
  rlp_DecodeBytes storageSlots = inl signedMessages /\
  (0 <= messageIndex < Z.of_nat (List.length signedMessages) ->
   messageIndex < 2 ^ 63 ->
   exists signedMessage message,
    nth_error signedMessages (Z.to_nat messageIndex) = Some signedMessage
    /\ teleporter_ParseMessage signedMessage = inl message
    /\ DestinationChainID (Unsigned message) = ChainID (SnowCtx predicateContext)
    /\ Signature_Verify (MsgSignature message) (Unsigned message)
         (ValidatorState (SnowCtx predicateContext))
         (PChainHeight proposer) 67 100 = None
    /\ getVerifiedWarpMessage rlp_DecodeBytes teleporter_ParseMessage
         ABI_UnpackInput_getVerifiedWarpMessage ABI_PackOutput_getVerifiedWarpMessage
         WarpMessengerAddress accessibleState caller addr input suppliedGas false
       = let db := GetStateDB accessibleState in
         let remainingGas := suppliedGas - GetVerifiedWarpMessageGasCost in
         match MsgSignature message with
         | OtherSignature _ =>
             Returns (mkCallResult None remainingGas
                        (Some (errors_New "invalid aggregate signature")), db)
         | BitSetSignature signers _ =>
             match deductGas remainingGas
                     (uint64_mul GetVerifiedWarpMessageGasCost
                        (HammingWeight (BitsFromBytes signers))) with
             | (_, Some e) => Returns (mkCallResult None 0 (Some e), db)
             | (remainingGas, None) =>
                 match Codec_Unmarshal (umPayload (Unsigned message)) with
                 | inr e => Returns (mkCallResult None remainingGas (Some e), db)
                 | inl (_, warpMessage) =>
                     match ABI_PackOutput_getVerifiedWarpMessage warpMessage true with
                     | inr e => Returns (mkCallResult None remainingGas (Some e), db)
                     | inl packedOutput =>
                         Returns (mkCallResult (Some packedOutput) remainingGas None, db)
                     end
                 end
             end
         end).
Proof.
  intros Hproposer Hnonempty Hverdict Hslots Hgas Hunpack.
  assert (Hdecoded : exists signedMessages,
             rlp_DecodeBytes storageSlots = inl signedMessages
             /\ Forall (fun blob =>
                          spec_admitBlob teleporter_ParseMessage Signature_Verify
                            predicateContext proposer blob = None) signedMessages).
  { revert Hverdict. unfold verifyPredicate. rewrite Hproposer.
    destruct (List.length storageSlots =? 0)%nat eqn:E.
    - apply length_zero_iff_nil in E. contradiction.
    - destruct (rlp_DecodeBytes storageSlots) as [signedMessages|e]; [|discriminate].
      intros Hverdict. exists signedMessages. split; [reflexivity|].
      apply verifyMessages_None_iff, Hverdict. }
  destruct Hdecoded as (signedMessages & Hrlp & Hall).
  exists signedMessages. split; [exact Hrlp|]. intros Hrange Hint.
  destruct (nth_error signedMessages (Z.to_nat messageIndex)) as [signedMessage|] eqn:Hnth.
  2: { apply nth_error_None in Hnth. lia. }
  rewrite Forall_forall in Hall.
  pose proof (Hall signedMessage (nth_error_In _ _ Hnth)) as Hpassed.
  apply spec_admitBlob_None_iff in Hpassed.
  destruct Hpassed as (message & Hparse & Hdest & Hverify).
  exists signedMessage, message.
  repeat split; try assumption.
  apply (getVerifiedWarpMessage_selects _ _ _ _ _ _ storageSlots signedMessages
           signedMessage message Hgas Hunpack Hslots Hrlp); try assumption.
  lia.
Qed.

(** X9. The charge per signer is made before the payload is looked at.
    When the selected message carries a bit-set signature and the gas left
    covers the charge, a payload that does not decode, or an output that
    does not pack, ends the call with that error and with the gas left
    after both deductions: the signers are paid for all the same. *)
Theorem getVerifiedWarpMessage_late_failures_keep_the_charge
    (accessibleState : AccessibleState VS) (caller addr : Address) (input : bytes)
    (suppliedGas messageIndex : Z) (storageSlots : bytes)
    (signedMessages : list bytes) (signedMessage : bytes)
    (message : TeleporterMessage) (signers : bytes) (sig : Vector.t byte 96) :
  GetVerifiedWarpMessageGasCost <= suppliedGas ->
  ABI_UnpackInput_getVerifiedWarpMessage input = inl messageIndex ->
  GetPredicateStorageSlots (GetStateDB accessibleState) WarpMessengerAddress
    = (Some storageSlots, true) ->
  rlp_DecodeBytes storageSlots = inl signedMessages ->
  0 <= messageIndex < 2 ^ 63 ->
  nth_error signedMessages (Z.to_nat messageIndex) = Some signedMessage ->
  teleporter_ParseMessage signedMessage = inl message ->
  MsgSignature message = BitSetSignature signers sig ->
  uint64_mul GetVerifiedWarpMessageGasCost (HammingWeight (BitsFromBytes signers))
    <= suppliedGas - GetVerifiedWarpMessageGasCost ->
  let call :=
    getVerifiedWarpMessage rlp_DecodeBytes teleporter_ParseMessage
      ABI_UnpackInput_getVerifiedWarpMessage ABI_PackOutput_getVerifiedWarpMessage
      WarpMessengerAddress accessibleState caller addr input suppliedGas false in
  let left :=
    suppliedGas - GetVerifiedWarpMessageGasCost
    - uint64_mul GetVerifiedWarpMessageGasCost (HammingWeight (BitsFromBytes signers)) in
  (forall e,
     Codec_Unmarshal (umPayload (Unsigned message)) = inr e ->
     call = Returns (mkCallResult None left (Some e), GetStateDB accessibleState))
  /\ (forall version warpMessage e,
        Codec_Unmarshal (umPayload (Unsigned message)) = inl (version, warpMessage) ->
        ABI_PackOutput_getVerifiedWarpMessage warpMessage true = inr e ->
        call = Returns (mkCallResult None left (Some e), GetStateDB accessibleState)).
Proof.
  intros Hgas Hunpack Hslots Hrlp Hidx Hnth Hparse Hsig Hcharge call left.
  subst call left.
  rewrite (getVerifiedWarpMessage_selects _ _ _ _ _ _ _ _ _ _
             Hgas Hunpack Hslots Hrlp Hidx Hnth Hparse).
  rewrite Hsig. cbv zeta. rewrite (deductGas_enough _ _ Hcharge).
  split.
  - intros e ->. reflexivity.
  - intros version warpMessage e -> ->. reflexivity.
Qed.

End Claims.

(* ===================================================================== *)
(** ** Runs on concrete inputs *)
(* ===================================================================== *)

(** At 150,000 gas and three signers a price of 1,000 gas a signer leaves
    47,000 gas; the code
    runs out of gas. *)
Lemma getVerifiedWarpMessage_three_signers_out_of_gas :
  let accessibleState :=
    Reference.stateWith Reference.chainB
      (Some (Reference.slotsOf [Reference.signedForB])) in
  HammingWeight (BitsFromBytes [x07]) = 3
  /\ 0 <= 150000 - 100000 - 1000 * 3
  /\ Reference.getVerifiedWarpMessage accessibleState Reference.alice
       Reference.WarpMessengerAddress (Reference.PackGetVerifiedWarpMessage 0)
       150000 false
     = Returns (mkCallResult None 0 (Some ErrOutOfGas), GetStateDB accessibleState).
Proof.
  cbv zeta. split; [reflexivity|]. split; [lia|].
  unfold Reference.getVerifiedWarpMessage.
  refine (proj1 (getVerifiedWarpMessage_charges_base_cost_per_signer
                   Reference.rlp_DecodeBytes Reference.teleporter_ParseMessage
                   Reference.ABI_UnpackInput_getVerifiedWarpMessage
                   Reference.ABI_PackOutput_getVerifiedWarpMessage
                   Reference.WarpMessengerAddress
                   _ _ _ _ 150000 0
                   (Reference.slotsOf [Reference.signedForB])
                   [Reference.messageBytes Reference.signedForB]
                   (Reference.messageBytes Reference.signedForB)
                   Reference.signedForB [x07] (fillArray 96 [])
                   _ _ _ _ _ _ _ _) _).
  - unfold GetVerifiedWarpMessageGasCost. lia.
  - vm_compute. reflexivity.
  - vm_compute. reflexivity.
  - vm_compute. reflexivity.
  - lia.
  - reflexivity.
  - vm_compute. reflexivity.
  - reflexivity.
  - vm_compute. reflexivity.
Defined.

Lemma getBlockchainId_readOnly_sample :
  Reference.getBlockchainId (Reference.stateWith Reference.chainA None)
    Reference.alice Reference.WarpMessengerAddress [] 5000 true
  = Returns (mkCallResult None 0 (Some ErrWriteProtection),
             GetStateDB (Reference.stateWith Reference.chainA None)).
Proof.
  unfold Reference.getBlockchainId.
  apply (getBlockchainId_readOnly_is_write_protected
           Reference.ABI_PackOutput_getBlockchainId
           (Reference.stateWith Reference.chainA None)
           Reference.alice Reference.WarpMessengerAddress [] 5000).
  unfold GetBlockchainIdGasCost. lia.
Defined.

(** A predicate run: on chain B, with four validators of which three
    signed, the one message for chain B is passed. *)
Lemma verifyPredicate_admits_signedForB :
  Reference.verifyPredicate
    (mkPredicateContext (mkSnowContext Reference.chainB 4)
       (Some (mkProposerVMBlockContext 10)))
    (Reference.slotsOf [Reference.signedForB])
  = None.
Proof.
  unfold Reference.verifyPredicate.
  pose proof (verifyPredicate_algorithm
                Reference.rlp_DecodeBytes Reference.teleporter_ParseMessage
                Reference.Signature_Verify
                (mkPredicateContext (mkSnowContext Reference.chainB 4)
                   (Some (mkProposerVMBlockContext 10)))
                (Reference.slotsOf [Reference.signedForB])) as Halgorithm.
  cbv zeta in Halgorithm.
  destruct Halgorithm as (_ & Hsteps & _).
  destruct (Hsteps (mkProposerVMBlockContext 10) eq_refl) as (_ & _ & Hblobs).
  destruct (Hblobs [Reference.messageBytes Reference.signedForB]) as (_ & Hall).
  - vm_compute. discriminate.
  - vm_compute. reflexivity.
  - apply Hall. constructor; [vm_compute; reflexivity | constructor].
Defined.

(** One unit of gas short of the base cost: [sendWarpMessage] consumes all
    gas and adds no log. *)
Lemma sendWarpMessage_one_gas_short :
  Reference.sendWarpMessage (Reference.stateWith Reference.chainA None)
    Reference.alice Reference.WarpMessengerAddress
    (Reference.PackSendWarpMessage
       (mkSendWarpMessageInput Reference.chainB Reference.bob [x68; x69]))
    99999 false
  = Returns (mkCallResult None 0 (Some ErrOutOfGas),
             GetStateDB (Reference.stateWith Reference.chainA None)).
Proof.
  unfold Reference.sendWarpMessage.
  refine (proj1 (proj2 (proj2 (proj2
            (gas_exhaustion_consumes_all_gas
               Reference.rlp_DecodeBytes Reference.teleporter_ParseMessage
               Reference.ABI_UnpackInput_getVerifiedWarpMessage
               Reference.ABI_UnpackInputIntoInterface_sendWarpMessage
               Reference.ABI_PackOutput_getBlockchainId
               Reference.ABI_PackOutput_getVerifiedWarpMessage
               Reference.WarpMessengerAddress Reference.Version))))
            _ _ _ _ 99999 false _).
  unfold SendWarpMessageGasCost. lia.
Defined.

(** Index 2 into a payload of two messages. *)
Lemma getVerifiedWarpMessage_index_past_the_end :
  let accessibleState :=
    Reference.stateWith Reference.chainB
      (Some (Reference.slotsOf [Reference.signedForB; Reference.oddlySigned])) in
  Reference.getVerifiedWarpMessage accessibleState Reference.alice
    Reference.WarpMessengerAddress (Reference.PackGetVerifiedWarpMessage 2)
    400000 false
  = Returns (mkCallResult None 300000 (Some (errors_New "invalid message index")),
             GetStateDB accessibleState).
Proof.
  cbv zeta. unfold Reference.getVerifiedWarpMessage.
  refine (getVerifiedWarpMessage_invalid_message_index
            Reference.rlp_DecodeBytes Reference.teleporter_ParseMessage
            Reference.ABI_UnpackInput_getVerifiedWarpMessage
            Reference.ABI_PackOutput_getVerifiedWarpMessage
            Reference.WarpMessengerAddress
            _ _ _ _ 400000 2
            (Reference.slotsOf [Reference.signedForB; Reference.oddlySigned])
            [Reference.messageBytes Reference.signedForB;
             Reference.messageBytes Reference.oddlySigned]
            _ _ _ _ _).
  - unfold GetVerifiedWarpMessageGasCost. lia.
  - vm_compute. reflexivity.
  - vm_compute. reflexivity.
  - vm_compute. reflexivity.
  - right. cbn. lia.
Defined.

(** A message for chain B, read on chain A: the predicate of chain A
    rejects it, yet [getVerifiedWarpMessage] returns it with success. *)
Lemma getVerifiedWarpMessage_returns_message_for_another_chain :
  let slots := Reference.slotsOf [Reference.signedForB] in
  let accessibleState := Reference.stateWith Reference.chainA (Some slots) in
  DestinationChainID (Unsigned Reference.signedForB) <> ChainID (GetSnowContext accessibleState)
  /\ Reference.verifyPredicate
       (mkPredicateContext (GetSnowContext accessibleState)
          (Some (mkProposerVMBlockContext 10))) slots
     = Some (errors_New "wrong chain id")
  /\ exists packedOutput,
       Reference.ABI_PackOutput_getVerifiedWarpMessage Reference.sampleWarpMessage true
         = inl packedOutput
       /\ Reference.getVerifiedWarpMessage accessibleState Reference.alice
            Reference.WarpMessengerAddress (Reference.PackGetVerifiedWarpMessage 0)
            400000 false
          = Returns (mkCallResult (Some packedOutput) 0 None, GetStateDB accessibleState).
Proof.
  cbv zeta. split; [|split].
  - intros H. apply Hash_eqb_eq in H. vm_compute in H. discriminate H.
  - vm_compute. reflexivity.
  - eexists. split; [reflexivity|].
    unfold Reference.getVerifiedWarpMessage.
    refine (proj1 (getVerifiedWarpMessage_returns_without_reverification
              Reference.rlp_DecodeBytes Reference.teleporter_ParseMessage
              Reference.ABI_UnpackInput_getVerifiedWarpMessage
              Reference.ABI_PackOutput_getVerifiedWarpMessage
              Reference.WarpMessengerAddress
              _ _ _ _ 400000 0
              (Reference.slotsOf [Reference.signedForB])
              [Reference.messageBytes Reference.signedForB]
              (Reference.messageBytes Reference.signedForB)
              Reference.signedForB [x07] (fillArray 96 [])
              0 Reference.sampleWarpMessage _
              _ _ _ _ _ _ _ _ _ _ _)).
    + unfold GetVerifiedWarpMessageGasCost. lia.
    + vm_compute. reflexivity.
    + vm_compute. reflexivity.
    + vm_compute. reflexivity.
    + lia.
    + reflexivity.
    + vm_compute. reflexivity.
    + reflexivity.
    + vm_compute. discriminate.
    + vm_compute. reflexivity.
    + reflexivity.
Defined.

(** The second message of the payload carries a signature of another
    kind. *)
Lemma getVerifiedWarpMessage_rejects_oddlySigned :
  let accessibleState :=
    Reference.stateWith Reference.chainB
      (Some (Reference.slotsOf [Reference.signedForB; Reference.oddlySigned])) in
  Reference.getVerifiedWarpMessage accessibleState Reference.alice
    Reference.WarpMessengerAddress (Reference.PackGetVerifiedWarpMessage 1)
    400000 false
  = Returns (mkCallResult None 300000 (Some (errors_New "invalid aggregate signature")),
             GetStateDB accessibleState).
Proof.
  cbv zeta. unfold Reference.getVerifiedWarpMessage.
  refine (getVerifiedWarpMessage_invalid_aggregate_signature
            Reference.rlp_DecodeBytes Reference.teleporter_ParseMessage
            Reference.ABI_UnpackInput_getVerifiedWarpMessage
            Reference.ABI_PackOutput_getVerifiedWarpMessage
            Reference.WarpMessengerAddress
            _ _ _ _ 400000 1
            (Reference.slotsOf [Reference.signedForB; Reference.oddlySigned])
            [Reference.messageBytes Reference.signedForB;
             Reference.messageBytes Reference.oddlySigned]
            (Reference.messageBytes Reference.oddlySigned)
            Reference.oddlySigned [x01]
            _ _ _ _ _ _ _ _).
  - unfold GetVerifiedWarpMessageGasCost. lia.
  - vm_compute. reflexivity.
  - vm_compute. reflexivity.
  - vm_compute. reflexivity.
  - lia.
  - reflexivity.
  - vm_compute. reflexivity.
  - reflexivity.
Defined.

(** Alice on chain A sends "hi" to Bob on chain B with exactly the base
    cost: the call succeeds and leaves one log whose first topic is the
    constant [SubmitMessageEventID], which is not the hash of the declared
    event. *)
Lemma sendWarpMessage_sample_first_topic :
  let accessibleState := Reference.stateWith Reference.chainA None in
  let input :=
    Reference.PackSendWarpMessage
      (mkSendWarpMessageInput Reference.chainB Reference.bob [x68; x69]) in
  exists db' log,
    Reference.sendWarpMessage accessibleState Reference.alice
      Reference.WarpMessengerAddress input 100000 false
    = Returns (mkCallResult (Some []) 0 None, db')
    /\ Logs db' = [log]
    /\ Topics log = [HexToHash SubmitMessageEventID; Reference.chainA; Reference.chainB]
    /\ HexToHash SubmitMessageEventID <> Keccak256Hash SendWarpMessageEventSignature.
Proof.
  cbv zeta.
  destruct (sendWarpMessage_succeeds
              Reference.ABI_UnpackInputIntoInterface_sendWarpMessage
              Reference.WarpMessengerAddress Reference.Version
              (Reference.stateWith Reference.chainA None)
              Reference.alice Reference.WarpMessengerAddress
              (Reference.PackSendWarpMessage
                 (mkSendWarpMessageInput Reference.chainB Reference.bob [x68; x69]))
              100000
              (mkSendWarpMessageInput Reference.chainB Reference.bob [x68; x69])
              ltac:(unfold SendWarpMessageGasCost; lia)
              ltac:(vm_compute; reflexivity)
              ltac:(cbn; lia)) as [db' Hcall].
  destruct (sendWarpMessage_first_topic_is_SubmitMessageEventID
              Reference.ABI_UnpackInputIntoInterface_sendWarpMessage
              Reference.WarpMessengerAddress Reference.Version
              _ _ _ _ _ _ _ _ Hcall eq_refl)
    as (inputStruct & data & Hunpack & _ & Hlogs & Hdiffer).
  exists db'. eexists. split; [exact Hcall|].
  split; [exact Hlogs|].
  split; [|exact Hdiffer].
  assert (HinputStruct :
            inputStruct = mkSendWarpMessageInput Reference.chainB Reference.bob [x68; x69]).
  { assert (Hsample :
              Reference.ABI_UnpackInputIntoInterface_sendWarpMessage
                (Reference.PackSendWarpMessage
                   (mkSendWarpMessageInput Reference.chainB Reference.bob [x68; x69]))
              = inl (mkSendWarpMessageInput Reference.chainB Reference.bob [x68; x69]))
      by (vm_compute; reflexivity).
    congruence. }
  rewrite HinputStruct. reflexivity.
Defined.


(** Known values of Keccak-256: the empty string, and the identifier of
    the ERC-20 [Transfer] event. *)
Example Keccak256Hash_empty :
  Keccak256Hash ""
  = HexToHash "c5d2460186f7233c927e7db2dcc703c0e500b653ca82273b7bfad8045d85a470".
Proof. vm_compute. reflexivity. Qed.

Example Keccak256Hash_Transfer :
  Keccak256Hash "Transfer(address,address,uint256)"
  = HexToHash "ddf252ad1be2c89b69c2b068fc378daa952ba7f163c4a11628f55a4df523b3ef".
Proof. vm_compute. reflexivity. Qed.

(** The identifier of the event the ABI declares. *)
Example Keccak256Hash_SendWarpMessage :
  Keccak256Hash SendWarpMessageEventSignature
  = HexToHash "3fbe72e4ebb97828161c60c9f46739afd78d4d819aa53b9bf6790d96c3060773".
Proof. vm_compute. reflexivity. Qed.

(** The comment beside [SubmitMessageEventID] gives
    "SubmitMessage(bytes32,uint256)" as its preimage; the constant is not
    the hash of that string either. *)
Remark SubmitMessageEventID_is_not_the_hash_of_its_comment :
  HexToHash SubmitMessageEventID <> Keccak256Hash "SubmitMessage(bytes32,uint256)".
Proof.
  intros H. apply Hash_eqb_eq in H. vm_compute in H. discriminate H.
Qed.

(** A call with the reference ABI, whose index is read as an unsigned
    integer, on a state without predicate data: the call returns, and what
    it returns is the error for missing slots. *)
Lemma getVerifiedWarpMessage_sample_returns :
  exists r db,
    Reference.getVerifiedWarpMessage (Reference.stateWith Reference.chainA None)
      Reference.alice Reference.WarpMessengerAddress
      (Reference.PackGetVerifiedWarpMessage 0) 100000 false
    = Returns (r, db).
Proof.
  unfold Reference.getVerifiedWarpMessage.
  apply (getVerifiedWarpMessage_never_panics
           Reference.rlp_DecodeBytes Reference.teleporter_ParseMessage
           Reference.ABI_UnpackInput_getVerifiedWarpMessage
           Reference.ABI_PackOutput_getVerifiedWarpMessage
           Reference.WarpMessengerAddress).
  intros messageIndex Hunpack. vm_compute in Hunpack.
  injection Hunpack as <-. lia.
Defined.

Lemma getVerifiedWarpMessage_sample_missing_slots :
  Reference.getVerifiedWarpMessage (Reference.stateWith Reference.chainA None)
    Reference.alice Reference.WarpMessengerAddress
    (Reference.PackGetVerifiedWarpMessage 0) 100000 false
  = Returns (mkCallResult None 0
               (Some (errors_New
                        "missing access list storage slots from precompile during execution")),
             GetStateDB (Reference.stateWith Reference.chainA None)).
Proof.
  unfold Reference.getVerifiedWarpMessage.
  refine (getVerifiedWarpMessage_missing_storage_slots
            Reference.rlp_DecodeBytes Reference.teleporter_ParseMessage
            Reference.ABI_UnpackInput_getVerifiedWarpMessage
            Reference.ABI_PackOutput_getVerifiedWarpMessage
            Reference.WarpMessengerAddress
            _ _ _ _ 100000 0 _ _ _).
  - unfold GetVerifiedWarpMessageGasCost. lia.
  - vm_compute. reflexivity.
  - right. vm_compute. reflexivity.
Defined.

(* ===================================================================== *)
(** * The load simulator: the agent that issues in batches *)
(* ===================================================================== *)

(** A shallow embedding of [issueNAgent.Execute] of
    [cmd/simulator/txs/agent.go].

    - The transaction channel is the list of the transactions it delivers
      before the sequence closes it; a receive from the empty list is a
      receive from the closed channel.
    - The worker is a state [W] with its three methods as functions that
      return the next state and an error, [None] for nil.
    - Each [select] is numbered in the order it is run; [ctxDone k] tells
      whether select [k] takes the [ctx.Done()] branch.
    - The calls made to the worker are recorded, oldest first.
    - [make([]T, 0, a.n)] panics when the capacity does not fit an [int]
      or exceeds what the allocator accepts for the element type
      ([maxElems]); the deferred [Close] runs while the panic unwinds.
    - Of the metrics [m] what is kept is whether its two observers can be
      called: [Observe] through a nil [m] or a nil observer panics. The
      values observed, the clock readings they come from and the log
      lines do not influence the calls or the result and are left out.
    - The sequence, the worker and the context are values, none of them
      nil. *)
Module Simulator.

Section IssueNAgent.

Variable T : Type.
Variable W : Type.

Variable IssueTx : W -> T -> W * option error.
Variable ConfirmTx : W -> T -> W * option error.
Variable Close : W -> W * option error.

Variable ctxDone : nat -> bool.
Variable ctxErr : error.

(** The largest number of elements of type [T] the allocator accepts in
    one slice. *)
Variable maxElems : N.

(** [m *metrics.Metrics] as far as [Execute] reads it: whether
    [m.IssuanceTxTimes.Observe] and [m.ConfirmationTxTimes.Observe] can be
    called. A nil [m] is the one where neither can. *)
Record Metrics : Type := mkMetrics {
  IssuanceTxTimes : bool;
  ConfirmationTxTimes : bool
}.

Variable m : Metrics.

Definition nilDereference : string :=
  "runtime error: invalid memory address or nil pointer dereference".

(** An error returned by [Execute]: one passed on as it is, or one made
    by [fmt.Errorf(format, arg, cause)] with a [%d] and a [%w]. *)
Inductive agentError : Type :=
| Plain (e : error)
| Errorf (format : string) (arg : nat) (cause : error).

Inductive Call : Type :=
| IssueTxCall (tx : T)
| ConfirmTxCall (tx : T)
| CloseCall.

Record Run : Type := mkRun {
  worker : W;
  calls : list Call;
  selects : nat
}.

(** How [Execute], or its outer loop, ends: it returns an error value
    ([None] for nil), or the run time panics. *)
Inductive Outcome : Type :=
| Returned (result : option agentError) (s : Run)
| Panicked (msg : string) (s : Run).

Definition runOf (o : Outcome) : Run :=
  match o with
  | Returned _ s => s
  | Panicked _ s => s
  end.

Definition called (s : Run) (w : W) (c : Call) : Run :=
  {| worker := w; calls := calls s ++ [c]; selects := selects s |}.

Definition selected (s : Run) : Run :=
  {| worker := worker s; calls := calls s; selects := S (selects s) |}.

(** [make([]T, 0, n)] with [n] a [uint64]: "makeslice: cap out of range"
    when [n] does not fit an [int] of 64 bits or is more than the
    allocator takes; where [int] is narrower, [maxElems] is the lower of
    the two bounds. *)
Definition makeslicePanics (n : N) : bool :=
  ((2 ^ 63 <=? n) || (maxElems <? n))%N.

(** How the issuance loop (label [L]) ends: the function returns from
    inside it, the observation of the issuance time panics, or the loop is
    left with the batch [txs], the flag [moreTxs] and what the channel
    still holds. *)
Inductive IssueOutcome : Type :=
| IssueReturned (e : agentError) (s : Run)
| IssuePanicked (msg : string) (s : Run)
| IssueDone (txs : list T) (moreTxs : bool) (txChan : list T) (s : Run).

(** The loop [for i := uint64(0); i < a.n; i++] with [k = a.n - i]
    iterations to go. *)
Fixpoint issueBatch (k : nat) (txs : list T) (moreTxs : bool) (txChan : list T)
    (s : Run) : IssueOutcome :=
  match k with
  | O => IssueDone txs moreTxs txChan s
  | S k' =>
      if ctxDone (selects s) then IssueReturned (Plain ctxErr) (selected s)
      else
        match txChan with
        | [] => IssueDone txs false [] (selected s)
        | tx :: rest =>
            match IssueTx (worker s) tx with
            | (w', Some e) =>
                IssueReturned
                  (Errorf "failed to issue transaction %d: %w" (List.length txs) e)
                  (called (selected s) w' (IssueTxCall tx))
            | (w', None) =>
                if IssuanceTxTimes m
                then issueBatch k' (txs ++ [tx]) true rest
                       (called (selected s) w' (IssueTxCall tx))
                else IssuePanicked nilDereference
                       (called (selected s) w' (IssueTxCall tx))
            end
        end
  end.

(** How the confirmation loop ends: the function returns from inside it,
    the observation of the confirmation time panics, or the loop is left. *)
Inductive ConfirmOutcome : Type :=
| ConfirmReturned (e : agentError) (s : Run)
| ConfirmPanicked (msg : string) (s : Run)
| ConfirmDone (s : Run).

(** The loop [for i, tx := range txs]. *)
Fixpoint confirmBatch (i : nat) (txs : list T) (s : Run) : ConfirmOutcome :=
  match txs with
  | [] => ConfirmDone s
  | tx :: rest =>
      match ConfirmTx (worker s) tx with
      | (w', Some e) =>
          ConfirmReturned (Errorf "failed to await transaction %d: %w" i e)
            (called s w' (ConfirmTxCall tx))
      | (w', None) =>
          if ConfirmationTxTimes m
          then confirmBatch (S i) rest (called s w' (ConfirmTxCall tx))
          else ConfirmPanicked nilDereference (called s w' (ConfirmTxCall tx))
      end
  end.

(** The outer [for] loop, each turn starting with [make([]T, 0, a.n)].
    Every turn but the last takes at least one transaction off the
    channel, so [fuel] above the length of the channel is never used up
    ([batches_ends]). *)
Fixpoint batches (fuel : nat) (n : N) (txChan : list T) (s : Run) : option Outcome :=
  match fuel with
  | O => None
  | S fuel' =>
      if makeslicePanics n then Some (Panicked "makeslice: cap out of range" s)
      else
        match issueBatch (N.to_nat n) [] false txChan s with
        | IssueReturned e s' => Some (Returned (Some e) s')
        | IssuePanicked msg s' => Some (Panicked msg s')
        | IssueDone txs moreTxs txChan' s' =>
            match confirmBatch 0 txs s' with
            | ConfirmReturned e s'' => Some (Returned (Some e) s'')
            | ConfirmPanicked msg s'' => Some (Panicked msg s'')
            | ConfirmDone s'' =>
                if negb moreTxs then Some (Returned None s'')
                else batches fuel' n txChan' s''
            end
        end
  end.

(** The deferred function: [Close] is called, its error only logged. *)
Definition deferred (o : Outcome) : Outcome :=
  match o with
  | Returned result s =>
      let (w', _) := Close (worker s) in Returned result (called s w' CloseCall)
  | Panicked msg s =>
      let (w', _) := Close (worker s) in Panicked msg (called s w' CloseCall)
  end.

(** [Execute]: the test of the batch size comes before the [defer], so a
    batch size of zero returns without closing the worker; every other
    way out, a panic included, runs the deferred [Close]. *)
Definition Execute (n : N) (txChan : list T) (w : W) : option Outcome :=
  if (n =? 0)%N
  then Some (Returned (Some (Plain (errors_New "batch size n cannot be equal to 0")))
               (mkRun w [] 0))
  else
    match batches (S (List.length txChan)) n txChan (mkRun w [] 0) with
    | None => None
    | Some o => Some (deferred o)
    end.

(** What a batch looks like among the calls: issued in order, then
    confirmed in order. *)
Definition batchCalls (batch : list T) : list Call :=
  map IssueTxCall batch ++ map ConfirmTxCall batch.

(** The worker's answer to one call, and to a sequence of calls made one
    after the other from a given state as long as it answers nil. *)
Definition answer (w : W) (c : Call) : W * option error :=
  match c with
  | IssueTxCall tx => IssueTx w tx
  | ConfirmTxCall tx => ConfirmTx w tx
  | CloseCall => Close w
  end.

Fixpoint replay (w : W) (cs : list Call) : W * option error :=
  match cs with
  | [] => (w, None)
  | c :: rest =>
      match answer w c with
      | (w', None) => replay w' rest
      | (w', Some e) => (w', Some e)
      end
  end.

(** The transactions issued and not yet confirmed after each call, and the
    most there ever were. *)
Definition countCall (st : Z * Z) (c : Call) : Z * Z :=
  let (outstanding, peak) := st in
  match c with
  | IssueTxCall _ => (outstanding + 1, Z.max peak (outstanding + 1))
  | ConfirmTxCall _ => (outstanding - 1, peak)
  | CloseCall => (outstanding, peak)
  end.

Definition peakOutstanding (cs : list Call) : Z :=
  snd (fold_left countCall cs (0, 0)).

End IssueNAgent.

Arguments IssueTxCall {T} tx.
Arguments ConfirmTxCall {T} tx.
Arguments CloseCall {T}.
Arguments mkRun {T W} _ _ _.
Arguments worker {T W} _.
Arguments calls {T W} _.
Arguments selects {T W} _.
Arguments Returned {T W} result s.
Arguments Panicked {T W} msg s.
Arguments runOf {T W} o.
Arguments IssueReturned {T W} e s.
Arguments IssuePanicked {T W} msg s.
Arguments IssueDone {T W} txs moreTxs txChan s.
Arguments ConfirmReturned {T W} e s.
Arguments ConfirmPanicked {T W} msg s.
Arguments ConfirmDone {T W} s.
Arguments batchCalls {T} batch.
Arguments peakOutstanding {T} cs.
Arguments countCall {T} st c.

End Simulator.

(** ** Properties of the agent *)

Section IssueNAgentFacts.

Import Simulator.

Variable T : Type.
Variable W : Type.
Variable IssueTx : W -> T -> W * option error.
Variable ConfirmTx : W -> T -> W * option error.
Variable Close : W -> W * option error.
Variable ctxDone : nat -> bool.
Variable ctxErr : error.
Variable maxElems : N.
Variable m : Metrics.

(** The context is never done. *)
Definition neverDone : Prop := forall k, ctxDone k = false.

(** Both observers of the metrics can be called. *)
Definition observable : Prop :=
  IssuanceTxTimes m = true /\ ConfirmationTxTimes m = true.

Lemma replay_app (cs1 cs2 : list (Call T)) (w w2 : W) :
  replay T W IssueTx ConfirmTx Close w (cs1 ++ cs2) = (w2, None) ->
  exists w1,
    replay T W IssueTx ConfirmTx Close w cs1 = (w1, None)
    /\ replay T W IssueTx ConfirmTx Close w1 cs2 = (w2, None).
Proof.
  revert w. induction cs1 as [|c cs1 IH]; intros w; cbn [app replay].
  - intros H. exists w. auto.
  - destruct (answer T W IssueTx ConfirmTx Close w c) as [w' [e|]]; [discriminate|].
    apply IH.
Qed.

Lemma issueBatch_issues (k : nat) :
  neverDone ->
  IssuanceTxTimes m = true ->
  forall (txs : list T) (moreTxs : bool) (txChan : list T) (s : Run T W) (w1 : W),
    replay T W IssueTx ConfirmTx Close (worker s) (map IssueTxCall (firstn k txChan))
      = (w1, None) ->
    exists s',
      issueBatch T W IssueTx ctxDone ctxErr m k txs moreTxs txChan s
      = IssueDone (txs ++ firstn k txChan)
          (if (k =? 0)%nat then moreTxs else (k <=? List.length txChan)%nat)
          (skipn k txChan) s'
      /\ calls s' = calls s ++ map IssueTxCall (firstn k txChan)
      /\ worker s' = w1.
Proof.
  intros Hctx Hobs. induction k as [|k IH]; intros txs moreTxs txChan s w1 Hreplay.
  - exists s. cbn in *. rewrite !app_nil_r. injection Hreplay as <-. auto.
  - cbn [issueBatch]. rewrite Hctx.
    destruct txChan as [|tx rest].
    + cbn in Hreplay. injection Hreplay as <-.
      eexists. cbn. rewrite !app_nil_r. repeat split; reflexivity.
    + cbn [firstn map replay answer] in Hreplay.
      destruct (IssueTx (worker s) tx) as [w' [e|]]; [discriminate Hreplay|].
      rewrite Hobs.
      destruct (IH (txs ++ [tx]) true rest
                  (called T W (selected T W s) w' (IssueTxCall tx)) w1 Hreplay)
        as (s' & Hrun & Hcalls & Hworker).
      exists s'. rewrite Hrun. split; [|split; [|exact Hworker]].
      * cbn [firstn skipn List.length]. rewrite <- app_assoc. cbn [app].
        f_equal. change (S k <=? S (List.length rest))%nat
          with (k <=? List.length rest)%nat.
        destruct k; reflexivity.
      * rewrite Hcalls. cbn [called calls selected firstn map].
        rewrite <- app_assoc. reflexivity.
Qed.

Lemma issueBatch_fails (bad : T) (e : error) :
  neverDone ->
  IssuanceTxTimes m = true ->
  forall (partial : list T) (k : nat) (txs : list T) (moreTxs : bool)
         (later : list T) (s : Run T W) (w1 w2 : W),
    (List.length partial < k)%nat ->
    replay T W IssueTx ConfirmTx Close (worker s) (map IssueTxCall partial) = (w1, None) ->
    IssueTx w1 bad = (w2, Some e) ->
    exists s',
      issueBatch T W IssueTx ctxDone ctxErr m k txs moreTxs (partial ++ bad :: later) s
      = IssueReturned
          (Errorf "failed to issue transaction %d: %w"
             (List.length txs + List.length partial) e) s'
      /\ calls s' = calls s ++ map IssueTxCall partial ++ [IssueTxCall bad]
      /\ worker s' = w2.
Proof.
  intros Hctx Hobs. induction partial as [|tx partial IH];
    intros k txs moreTxs later s w1 w2 Hlen Hreplay Hbad.
  - destruct k as [|k]; [cbn in Hlen; lia|].
    cbn in Hreplay. injection Hreplay as <-.
    cbn [issueBatch app]. rewrite Hctx, Hbad.
    eexists. split; [|split].
    + cbn [List.length]. rewrite Nat.add_0_r. reflexivity.
    + reflexivity.
    + reflexivity.
  - destruct k as [|k]; [cbn in Hlen; lia|].
    cbn [issueBatch app]. rewrite Hctx.
    cbn [map replay answer] in Hreplay.
    destruct (IssueTx (worker s) tx) as [w' [e'|]]; [discriminate Hreplay|].
    rewrite Hobs. cbn [List.length] in Hlen.
    destruct (IH k (txs ++ [tx]) true later
                (called T W (selected T W s) w' (IssueTxCall tx)) w1 w2
                ltac:(lia) Hreplay Hbad) as (s' & Hrun & Hcalls & Hworker).
    exists s'. rewrite Hrun. split; [|split; [|exact Hworker]].
    + rewrite length_app. cbn [List.length]. do 2 f_equal. lia.
    + rewrite Hcalls. cbn [called calls selected map app].
      rewrite <- app_assoc. reflexivity.
Qed.

Lemma confirmBatch_confirms :
  ConfirmationTxTimes m = true ->
  forall (txs : list T) (i : nat) (s : Run T W) (w1 : W),
    replay T W IssueTx ConfirmTx Close (worker s) (map ConfirmTxCall txs) = (w1, None) ->
    exists s',
      confirmBatch T W ConfirmTx m i txs s = ConfirmDone s'
      /\ calls s' = calls s ++ map ConfirmTxCall txs
      /\ worker s' = w1.
Proof.
  intros Hobs. induction txs as [|tx txs IH]; intros i s w1 Hreplay.
  - cbn in Hreplay. injection Hreplay as <-.
    exists s. cbn. rewrite app_nil_r. auto.
  - cbn [confirmBatch]. cbn [map replay answer] in Hreplay.
    destruct (ConfirmTx (worker s) tx) as [w' [e|]]; [discriminate Hreplay|].
    rewrite Hobs.
    destruct (IH (S i) (called T W s w' (ConfirmTxCall tx)) w1 Hreplay)
      as (s' & Hrun & Hcalls & Hworker).
    exists s'. rewrite Hrun. split; [reflexivity|]. split; [|exact Hworker].
    rewrite Hcalls. cbn [called calls map]. rewrite <- app_assoc. reflexivity.
Qed.

Lemma confirmBatch_fails (bad : T) (e : error) :
  ConfirmationTxTimes m = true ->
  forall (before : list T) (i : nat) (after : list T) (s : Run T W) (w1 w2 : W),
    replay T W IssueTx ConfirmTx Close (worker s) (map ConfirmTxCall before)
      = (w1, None) ->
    ConfirmTx w1 bad = (w2, Some e) ->
    exists s',
      confirmBatch T W ConfirmTx m i (before ++ bad :: after) s
      = ConfirmReturned
          (Errorf "failed to await transaction %d: %w" (i + List.length before) e) s'
      /\ calls s' = calls s ++ map ConfirmTxCall before ++ [ConfirmTxCall bad]
      /\ worker s' = w2.
Proof.
  intros Hobs. induction before as [|tx before IH]; intros i after s w1 w2 Hreplay Hbad.
  - cbn in Hreplay. injection Hreplay as <-.
    cbn [app confirmBatch]. rewrite Hbad.
    eexists. split; [|split].
    + cbn [List.length]. rewrite Nat.add_0_r. reflexivity.
    + reflexivity.
    + reflexivity.
  - cbn [app confirmBatch]. cbn [map replay answer] in Hreplay.
    destruct (ConfirmTx (worker s) tx) as [w' [e'|]]; [discriminate Hreplay|].
    rewrite Hobs.
    destruct (IH (S i) after (called T W s w' (ConfirmTxCall tx)) w1 w2 Hreplay Hbad)
      as (s' & Hrun & Hcalls & Hworker).
    exists s'. rewrite Hrun. split; [|split; [|exact Hworker]].
    + cbn [List.length]. do 2 f_equal. lia.
    + rewrite Hcalls. cbn [called calls map app]. rewrite <- app_assoc. reflexivity.
Qed.

Lemma firstn_skipn_full_batch (n : nat) (b rest : list T) :
  List.length b = n -> firstn n (b ++ rest) = b /\ skipn n (b ++ rest) = rest.
Proof.
  intros <-. rewrite firstn_app, skipn_app, Nat.sub_diag, firstn_all, skipn_all.
  cbn. rewrite app_nil_r. auto.
Qed.

Lemma length_concat_full_batches (n : nat) (bs : list (list T)) :
  Forall (fun b => List.length b = n) bs ->
  List.length (List.concat bs) = (n * List.length bs)%nat.
Proof.
  induction 1 as [|b bs Hb _ IH]; cbn [List.concat List.length].
  - lia.
  - rewrite length_app, IH, Hb. lia.
Qed.

(** Full batches that the worker issues and confirms are gone through one
    turn of the outer loop each. *)
Lemma batches_through_full_batches (n : N) :
  neverDone ->
  observable ->
  (1 <= n)%N ->
  makeslicePanics maxElems n = false ->
  forall (bs : list (list T)) (rest : list T) (fuel : nat) (s : Run T W) (w1 : W),
    Forall (fun b => List.length b = N.to_nat n) bs ->
    replay T W IssueTx ConfirmTx Close (worker s) (flat_map batchCalls bs) = (w1, None) ->
    exists s',
      calls s' = calls s ++ flat_map batchCalls bs
      /\ worker s' = w1
      /\ batches T W IssueTx ConfirmTx ctxDone ctxErr maxElems m
           (List.length bs + fuel) n (List.concat bs ++ rest) s
         = batches T W IssueTx ConfirmTx ctxDone ctxErr maxElems m fuel n rest s'.
Proof.
  intros Hctx [Hissued Hconfirmed] Hn Hmake.
  induction bs as [|b bs IH]; intros rest fuel s w1 Hfull Hreplay.
  - cbn in Hreplay. injection Hreplay as <-.
    exists s. cbn. rewrite app_nil_r. auto.
  - inversion Hfull as [|b0 l0 Hb Hfull' Heq]; clear Heq Hfull.
    cbn [flat_map] in Hreplay. unfold batchCalls at 1 in Hreplay.
    rewrite <- app_assoc in Hreplay.
    apply replay_app in Hreplay. destruct Hreplay as (wi & Hissue & Hreplay).
    apply replay_app in Hreplay. destruct Hreplay as (wc & Hconfirm & Hreplay).
    cbn [List.concat List.length Nat.add batches]. rewrite Hmake, <- app_assoc.
    destruct (firstn_skipn_full_batch (N.to_nat n) b (List.concat bs ++ rest) Hb)
      as [Hfirst Hskip].
    destruct (issueBatch_issues (N.to_nat n) Hctx Hissued [] false
                (b ++ List.concat bs ++ rest) s wi) as (s1 & Hrun1 & Hcalls1 & Hw1).
    { rewrite Hfirst. exact Hissue. }
    rewrite Hfirst in Hcalls1.
    rewrite Hrun1, Hfirst, Hskip. cbn [app].
    destruct (confirmBatch_confirms Hconfirmed b 0 s1 wc)
      as (s2 & Hrun2 & Hcalls2 & Hw2).
    { rewrite Hw1. exact Hconfirm. }
    rewrite Hrun2.
    assert (Hmore : (if (N.to_nat n =? 0)%nat then false
                     else (N.to_nat n
                           <=? List.length (b ++ List.concat bs ++ rest))%nat)
                    = true).
    { destruct (N.to_nat n =? 0)%nat eqn:E; [apply Nat.eqb_eq in E; lia|].
      apply Nat.leb_le. rewrite length_app. lia. }
    rewrite Hmore. cbn [negb].
    destruct (IH rest fuel s2 w1 Hfull') as (s' & Hcalls' & Hw' & Hrun').
    { rewrite Hw2. exact Hreplay. }
    exists s'. split; [|split; [exact Hw'|exact Hrun']].
    rewrite Hcalls', Hcalls2, Hcalls1. cbn [flat_map]. unfold batchCalls at 2.
    rewrite <- !app_assoc. reflexivity.
Qed.

(** A last batch shorter than [n]: the channel is found closed, the batch
    is confirmed and the loop ends. *)
Lemma batches_last_batch (n : N) (last : list T) (fuel : nat) (s : Run T W) (w1 : W) :
  neverDone ->
  observable ->
  makeslicePanics maxElems n = false ->
  (List.length last < N.to_nat n)%nat ->
  replay T W IssueTx ConfirmTx Close (worker s) (batchCalls last) = (w1, None) ->
  exists s',
    batches T W IssueTx ConfirmTx ctxDone ctxErr maxElems m (S fuel) n last s
    = Some (Returned None s')
    /\ calls s' = calls s ++ batchCalls last
    /\ worker s' = w1.
Proof.
  intros Hctx [Hissued Hconfirmed] Hmake Hlen Hreplay. cbn [batches]. rewrite Hmake.
  unfold batchCalls in Hreplay.
  apply replay_app in Hreplay. destruct Hreplay as (wi & Hissue & Hconfirm).
  assert (Hfirst : firstn (N.to_nat n) last = last) by (apply firstn_all2; lia).
  destruct (issueBatch_issues (N.to_nat n) Hctx Hissued [] false last s wi)
    as (s1 & Hrun1 & Hcalls1 & Hw1).
  { rewrite Hfirst. exact Hissue. }
  rewrite Hfirst in Hcalls1.
  rewrite Hrun1, Hfirst. cbn [app].
  destruct (confirmBatch_confirms Hconfirmed last 0 s1 w1)
    as (s2 & Hrun2 & Hcalls2 & Hw2).
  { rewrite Hw1. exact Hconfirm. }
  rewrite Hrun2.
  assert (Hmore : (if (N.to_nat n =? 0)%nat then false
                   else (N.to_nat n <=? List.length last)%nat) = false).
  { destruct (N.to_nat n =? 0)%nat; [reflexivity|]. apply Nat.leb_gt. exact Hlen. }
  rewrite Hmore. cbn [negb].
  exists s2. split; [reflexivity|]. split; [|exact Hw2].
  rewrite Hcalls2, Hcalls1. unfold batchCalls. rewrite <- app_assoc. reflexivity.
Qed.

(** The fuel [Execute] starts with covers the full batches and one turn
    more. *)
Lemma Execute_fuel (n : nat) (bs : list (list T)) (rest : list T) :
  (1 <= n)%nat ->
  Forall (fun b => List.length b = n) bs ->
  exists fuel,
    S (List.length (List.concat bs ++ rest)) = (List.length bs + S fuel)%nat.
Proof.
  intros Hn Hfull.
  exists (List.length (List.concat bs ++ rest) - List.length bs)%nat.
  rewrite length_app, (length_concat_full_batches n bs Hfull). nia.
Qed.

Lemma makeslice_in_range (n : N) :
  (n < 2 ^ 63)%N -> (n <= maxElems)%N -> makeslicePanics maxElems n = false.
Proof.
  intros Hint Helems. unfold makeslicePanics. apply orb_false_iff. split.
  - apply N.leb_gt. exact Hint.
  - apply N.ltb_ge. exact Helems.
Qed.


(** X10. The good run. When the context is never done, the batch size
    fits an [int] and the allocator, both observers of the metrics can be
    called, and the worker, started in the state it is handed over in,
    answers nil to every transaction issued and then confirmed batch by
    batch, [Execute] returns nil after exactly these calls: each full
    batch of [n] issued in order and then confirmed in order, the shorter
    last batch likewise, and [Close] at the end, called on the state the
    worker has reached. *)
Theorem Execute_issues_and_confirms_batch_by_batch
    (n : N) (bs : list (list T)) (last : list T) (w w1 : W) :
  neverDone ->
  observable ->
  (n < 2 ^ 63)%N ->
  (n <= maxElems)%N ->
  Forall (fun b => List.length b = N.to_nat n) bs ->
  (List.length last < N.to_nat n)%nat ->
  replay T W IssueTx ConfirmTx Close w (flat_map batchCalls bs ++ batchCalls last)
    = (w1, None) ->
  exists s,
    Execute T W IssueTx ConfirmTx Close ctxDone ctxErr maxElems m n
      (List.concat bs ++ last) w
    = Some (Returned None s)
    /\ calls s = flat_map batchCalls bs ++ batchCalls last ++ [CloseCall]
    /\ worker s = fst (Close w1).
Proof.
  intros Hctx Hobs Hint Helems Hfull Hlast Hreplay.
  pose proof (makeslice_in_range n Hint Helems) as Hmake.
  apply replay_app in Hreplay. destruct Hreplay as (wb & Hbs & Hl).
  unfold Execute.
  destruct (n =? 0)%N eqn:Hn; [apply N.eqb_eq in Hn; subst; cbn in Hlast; lia|].
  apply N.eqb_neq in Hn.
  destruct (Execute_fuel (N.to_nat n) bs last ltac:(lia) Hfull) as [fuel ->].
  destruct (batches_through_full_batches n Hctx Hobs ltac:(lia) Hmake
              bs last (S fuel) (mkRun w [] 0) wb Hfull Hbs)
    as (s1 & Hcalls1 & Hw1 & ->).
  destruct (batches_last_batch n last fuel s1 w1 Hctx Hobs Hmake Hlast)
    as (s2 & -> & Hcalls2 & Hw2).
  { rewrite Hw1. exact Hl. }
  cbn [deferred]. rewrite Hw2.
  destruct (Close w1) as [w' closeErr].
  eexists. split; [reflexivity|]. split; [|reflexivity].
  cbn [called calls]. rewrite Hcalls2, Hcalls1. cbn [calls app].
  rewrite <- app_assoc. reflexivity.
Qed.

(** Every channel splits into full batches and a shorter rest. *)
Lemma batch_decomposition (n : nat) (txChan : list T) :
  (1 <= n)%nat ->
  exists bs last,
    txChan = List.concat bs ++ last
    /\ Forall (fun b => List.length b = n) bs
    /\ (List.length last < n)%nat.
Proof.
  intros Hn.
  remember (List.length txChan) as len eqn:Hlen.
  revert txChan Hlen. induction len as [len IH] using lt_wf_ind. intros txChan Hlen.
  destruct (Nat.lt_ge_cases (List.length txChan) n) as [Hshort|Hlong].
  - exists [], txChan. cbn. auto.
  - destruct (IH (List.length (skipn n txChan))) with (txChan := skipn n txChan)
      as (bs & last & Hsplit & Hfull & Hlast).
    + rewrite length_skipn. lia.
    + reflexivity.
    + exists (firstn n txChan :: bs), last. split; [|split].
      * cbn [List.concat]. rewrite <- app_assoc, <- Hsplit. symmetry. apply firstn_skipn.
      * constructor; [|exact Hfull]. rewrite length_firstn. lia.
      * exact Hlast.
Qed.

(** X11. A transaction that cannot be issued. When the context is never
    done, the batch size fits an [int] and the allocator, both observers
    of the metrics can be called, the worker answers nil while the full
    batches before are issued and confirmed and the [partial] batch so far
    is issued, and in the state it has then reached answers the next
    transaction with an error, [Execute] returns "failed to issue
    transaction i" wrapping that error, with [i] the position of the
    transaction in its batch. The transactions of its batch that were
    already issued are not confirmed, nothing after the failing one is
    issued, and the worker is closed. *)
Theorem Execute_stops_at_the_first_issue_failure
    (n : N) (bs : list (list T)) (partial : list T) (bad : T) (later : list T)
    (e : error) (w w1 w2 : W) :
  neverDone ->
  observable ->
  (n < 2 ^ 63)%N ->
  (n <= maxElems)%N ->
  Forall (fun b => List.length b = N.to_nat n) bs ->
  (List.length partial < N.to_nat n)%nat ->
  replay T W IssueTx ConfirmTx Close w (flat_map batchCalls bs ++ map IssueTxCall partial)
    = (w1, None) ->
  IssueTx w1 bad = (w2, Some e) ->
  exists s,
    Execute T W IssueTx ConfirmTx Close ctxDone ctxErr maxElems m n
      (List.concat bs ++ partial ++ bad :: later) w
    = Some (Returned
              (Some (Errorf "failed to issue transaction %d: %w" (List.length partial) e))
              s)
    /\ calls s
       = flat_map batchCalls bs ++ map IssueTxCall partial
         ++ [IssueTxCall bad; CloseCall]
    /\ worker s = fst (Close w2).
Proof.
  intros Hctx Hobs Hint Helems Hfull Hpartial Hreplay Hbad.
  pose proof (makeslice_in_range n Hint Helems) as Hmake.
  apply replay_app in Hreplay. destruct Hreplay as (wb & Hbs & Hp).
  unfold Execute.
  destruct (n =? 0)%N eqn:Hn; [apply N.eqb_eq in Hn; subst; cbn in Hpartial; lia|].
  apply N.eqb_neq in Hn.
  destruct (Execute_fuel (N.to_nat n) bs (partial ++ bad :: later) ltac:(lia) Hfull)
    as [fuel ->].
  destruct (batches_through_full_batches n Hctx Hobs ltac:(lia) Hmake
              bs (partial ++ bad :: later) (S fuel) (mkRun w [] 0) wb Hfull Hbs)
    as (s1 & Hcalls1 & Hw1 & ->).
  cbn [batches]. rewrite Hmake.
  destruct (issueBatch_fails bad e Hctx (proj1 Hobs) partial (N.to_nat n) [] false
              later s1 w1 w2 Hpartial)
    as (s2 & -> & Hcalls2 & Hw2); [rewrite Hw1; exact Hp|exact Hbad|].
  cbn [deferred]. rewrite Hw2.
  destruct (Close w2) as [w' closeErr].
  eexists. split; [reflexivity|]. split; [|reflexivity].
  cbn [called calls]. rewrite Hcalls2, Hcalls1. cbn [calls app].
  rewrite <- !app_assoc. reflexivity.
Qed.

(** X12. A transaction that cannot be confirmed. When the context is never
    done, the batch size fits an [int] and the allocator, both observers
    of the metrics can be called, the worker answers nil while the full
    batches before are issued and confirmed, the batch at the head of what
    is left is issued whole and the transactions [before] one of it are
    confirmed, and in the state it has then reached answers the
    confirmation of that one with an error, [Execute] returns "failed to
    await transaction i" wrapping that error, with [i] its position in the
    batch. The transactions [after] it in the batch stay issued and
    unconfirmed, no further batch is issued, and the worker is closed. *)
Theorem Execute_stops_at_the_first_confirm_failure
    (n : N) (bs : list (list T)) (rest before : list T) (bad : T) (after : list T)
    (e : error) (w w1 w2 : W) :
  neverDone ->
  observable ->
  (n < 2 ^ 63)%N ->
  (n <= maxElems)%N ->
  Forall (fun b => List.length b = N.to_nat n) bs ->
  firstn (N.to_nat n) rest = before ++ bad :: after ->
  replay T W IssueTx ConfirmTx Close w
    (flat_map batchCalls bs ++ map IssueTxCall (before ++ bad :: after)
     ++ map ConfirmTxCall before)
    = (w1, None) ->
  ConfirmTx w1 bad = (w2, Some e) ->
  exists s,
    Execute T W IssueTx ConfirmTx Close ctxDone ctxErr maxElems m n
      (List.concat bs ++ rest) w
    = Some (Returned
              (Some (Errorf "failed to await transaction %d: %w" (List.length before) e))
              s)
    /\ calls s
       = flat_map batchCalls bs
         ++ map IssueTxCall (before ++ bad :: after)
         ++ map ConfirmTxCall before
         ++ [ConfirmTxCall bad; CloseCall]
    /\ worker s = fst (Close w2).
Proof.
  intros Hctx Hobs Hint Helems Hfull Hbatch Hreplay Hbad.
  pose proof (makeslice_in_range n Hint Helems) as Hmake.
  apply replay_app in Hreplay. destruct Hreplay as (wb & Hbs & Hreplay).
  apply replay_app in Hreplay. destruct Hreplay as (wi & Hissue & Hconfirm).
  unfold Execute.
  destruct (n =? 0)%N eqn:Hn.
  { apply N.eqb_eq in Hn. subst. cbn in Hbatch. destruct before; discriminate. }
  apply N.eqb_neq in Hn.
  destruct (Execute_fuel (N.to_nat n) bs rest ltac:(lia) Hfull) as [fuel ->].
  destruct (batches_through_full_batches n Hctx Hobs ltac:(lia) Hmake
              bs rest (S fuel) (mkRun w [] 0) wb Hfull Hbs)
    as (s1 & Hcalls1 & Hw1 & ->).
  cbn [batches]. rewrite Hmake.
  destruct (issueBatch_issues (N.to_nat n) Hctx (proj1 Hobs) [] false rest s1 wi)
    as (s2 & -> & Hcalls2 & Hw2).
  { rewrite Hbatch, Hw1. exact Hissue. }
  rewrite Hbatch in *. cbn [app].
  destruct (confirmBatch_fails bad e (proj2 Hobs) before 0 after s2 w1 w2)
    as (s3 & -> & Hcalls3 & Hw3); [rewrite Hw2; exact Hconfirm|exact Hbad|].
  cbn [deferred]. rewrite Hw3.
  destruct (Close w2) as [w' closeErr].
  eexists. split; [reflexivity|]. split; [|reflexivity].
  cbn [called calls]. rewrite Hcalls3, Hcalls2, Hcalls1. cbn [calls app].
  rewrite <- !app_assoc. reflexivity.
Qed.

(** *** Every run *)












Lemma calls_deferred (o : Outcome T W) :
  calls (runOf (deferred T W Close o)) = calls (runOf o) ++ [CloseCall].
Proof.
  destruct o as [result s|msg s]; cbn [deferred];
    destruct (Close (worker s)) as [w' closeErr]; reflexivity.
Qed.


(** *** Outstanding transactions *)

Lemma countCall_snoc (cs : list (Call T)) (c : Call T) (st : Z * Z) :
  fold_left countCall (cs ++ [c]) st = countCall (fold_left countCall cs st) c.
Proof. rewrite fold_left_app. reflexivity. Qed.

Lemma issueBatch_peak (bound : Z) (k : nat) :
  forall (txs : list T) (moreTxs : bool) (txChan : list T) (s : Run T W) (peak : Z),
    fold_left countCall (calls s) (0, 0) = (Z.of_nat (List.length txs), peak) ->
    peak <= bound ->
    Z.of_nat (List.length txs) + Z.of_nat k <= bound ->
    match issueBatch T W IssueTx ctxDone ctxErr m k txs moreTxs txChan s with
    | IssueReturned _ s' => snd (fold_left countCall (calls s') (0, 0)) <= bound
    | IssuePanicked _ s' => snd (fold_left countCall (calls s') (0, 0)) <= bound
    | IssueDone txs' _ _ s' =>
        exists peak',
          fold_left countCall (calls s') (0, 0) = (Z.of_nat (List.length txs'), peak')
          /\ peak' <= bound
    end.
Proof.
  induction k as [|k IH]; intros txs moreTxs txChan s peak Hcount Hpeak Hroom;
    cbn [issueBatch].
  - exists peak. auto.
  - destruct (ctxDone (selects s)).
    { cbn [selected calls]. rewrite Hcount. exact Hpeak. }
    destruct txChan as [|tx rest].
    { exists peak. cbn [selected calls]. auto. }
    assert (Hnext : forall w1,
               fold_left countCall
                 (calls (called T W (selected T W s) w1 (IssueTxCall tx))) (0, 0)
               = (Z.of_nat (List.length (txs ++ [tx])),
                  Z.max peak (Z.of_nat (List.length txs) + 1))).
    { intros w1. cbn [called calls selected]. rewrite countCall_snoc, Hcount.
      cbn [countCall]. rewrite length_app. cbn [List.length]. f_equal. lia. }
    destruct (IssueTx (worker s) tx) as [w1 [e|]].
    + rewrite Hnext. cbn [snd]. lia.
    + destruct (IssuanceTxTimes m).
      * apply (IH _ _ _ _ _ (Hnext w1)); [lia|].
        rewrite length_app. cbn [List.length]. lia.
      * rewrite Hnext. cbn [snd]. lia.
Qed.

Lemma confirmBatch_peak (bound : Z) :
  forall (txs : list T) (i : nat) (s : Run T W) (peak : Z),
    fold_left countCall (calls s) (0, 0) = (Z.of_nat (List.length txs), peak) ->
    peak <= bound ->
    match confirmBatch T W ConfirmTx m i txs s with
    | ConfirmReturned _ s' => snd (fold_left countCall (calls s') (0, 0)) <= bound
    | ConfirmPanicked _ s' => snd (fold_left countCall (calls s') (0, 0)) <= bound
    | ConfirmDone s' =>
        exists peak',
          fold_left countCall (calls s') (0, 0) = (0, peak') /\ peak' <= bound
    end.
Proof.
  induction txs as [|tx txs IH]; intros i s peak Hcount Hpeak; cbn [confirmBatch].
  - exists peak. auto.
  - assert (Hnext : forall w1,
               fold_left countCall (calls (called T W s w1 (ConfirmTxCall tx))) (0, 0)
               = (Z.of_nat (List.length txs), peak)).
    { intros w1. cbn [called calls]. rewrite countCall_snoc, Hcount.
      cbn [countCall List.length]. f_equal. lia. }
    destruct (ConfirmTx (worker s) tx) as [w1 [e|]].
    + rewrite Hnext. exact Hpeak.
    + destruct (ConfirmationTxTimes m).
      * apply (IH _ _ _ (Hnext w1) Hpeak).
      * rewrite Hnext. exact Hpeak.
Qed.

Lemma batches_peak (n : N) :
  forall (fuel : nat) (txChan : list T) (s : Run T W) (peak : Z) (o : Outcome T W),
    fold_left countCall (calls s) (0, 0) = (0, peak) ->
    peak <= Z.of_N n ->
    batches T W IssueTx ConfirmTx ctxDone ctxErr maxElems m fuel n txChan s = Some o ->
    snd (fold_left countCall (calls (runOf o)) (0, 0)) <= Z.of_N n.
Proof.
  induction fuel as [|fuel IH]; intros txChan s peak o Hcount Hpeak; [discriminate|].
  cbn [batches].
  destruct (makeslicePanics maxElems n).
  { intros [= <-]. cbn [runOf]. rewrite Hcount. exact Hpeak. }
  pose proof (issueBatch_peak (Z.of_N n) (N.to_nat n) [] false txChan s peak Hcount Hpeak
                ltac:(cbn [List.length]; lia)) as Hissue.
  destruct (issueBatch T W IssueTx ctxDone ctxErr m (N.to_nat n) [] false txChan s)
    as [e s1|msg s1|txs moreTxs txChan1 s1];
    [intros [= <-]; exact Hissue|intros [= <-]; exact Hissue|].
  destruct Hissue as (peak1 & Hcount1 & Hpeak1).
  pose proof (confirmBatch_peak (Z.of_N n) txs 0 s1 peak1 Hcount1 Hpeak1) as Hconfirm.
  destruct (confirmBatch T W ConfirmTx m 0 txs s1) as [e s2|msg s2|s2];
    [intros [= <-]; exact Hconfirm|intros [= <-]; exact Hconfirm|].
  destruct Hconfirm as (peak2 & Hcount2 & Hpeak2).
  destruct moreTxs; cbn [negb].
  - apply (IH _ _ _ _ Hcount2 Hpeak2).
  - intros [= <-]. cbn [runOf]. rewrite Hcount2. exact Hpeak2.
Qed.

(** X14. At most [n] transactions are ever issued and not yet confirmed:
    in every run of [Execute], whatever the worker answers, whenever the
    context is done and whether the run returns or panics, the number of
    [IssueTx] calls less the number of [ConfirmTx] calls never exceeds the
    batch size at any point of the run. *)
Theorem Execute_keeps_at_most_n_outstanding
    (n : N) (txChan : list T) (w : W) (o : Outcome T W) :
  Execute T W IssueTx ConfirmTx Close ctxDone ctxErr maxElems m n txChan w = Some o ->
  peakOutstanding (calls (runOf o)) <= Z.of_N n.
Proof.
  unfold Execute, peakOutstanding. destruct (n =? 0)%N.
  - intros [= <-]. cbn. lia.
  - destruct (batches T W IssueTx ConfirmTx ctxDone ctxErr maxElems m
                (S (List.length txChan)) n txChan (mkRun w [] 0)) as [o1|] eqn:Hrun;
      [|discriminate].
    intros [= <-]. rewrite calls_deferred, countCall_snoc.
    pose proof (batches_peak n _ _ (mkRun w [] 0) 0 _ eq_refl ltac:(lia) Hrun)
      as Hpeak.
    destruct (fold_left countCall (calls (runOf o1)) (0, 0)) as [outstanding peak].
    cbn [countCall snd] in *. lia.
Qed.

End IssueNAgentFacts.

(* ===================================================================== *)
(** ** Further runs on concrete inputs *)
(* ===================================================================== *)

(** [getBlockchainId] with 6,000 gas: 1,000 are left. *)
Lemma getBlockchainId_sample_gas_within_supplied :
  exists r db,
    Reference.getBlockchainId (Reference.stateWith Reference.chainA None)
      Reference.alice Reference.WarpMessengerAddress [] 6000 false = Returns (r, db)
    /\ 0 <= remainingGas r <= 6000.
Proof.
  eexists. eexists. split; [vm_compute; reflexivity|].
  refine (proj1 (handlers_return_gas_within_supplied
                   Reference.rlp_DecodeBytes Reference.teleporter_ParseMessage
                   Reference.ABI_UnpackInput_getVerifiedWarpMessage
                   Reference.ABI_UnpackInputIntoInterface_sendWarpMessage
                   Reference.ABI_PackOutput_getBlockchainId
                   Reference.ABI_PackOutput_getVerifiedWarpMessage
                   Reference.WarpMessengerAddress Reference.Version
                   (Reference.stateWith Reference.chainA None)
                   Reference.alice Reference.WarpMessengerAddress [] 6000 false _)
                _ _ _).
  - lia.
  - vm_compute. reflexivity.
Defined.

(** A successful read on chain B: the gas left is the gas supplied less
    the base cost and the charge for the signers of the message. *)
Lemma getVerifiedWarpMessage_sample_success_inv :
  let accessibleState :=
    Reference.stateWith Reference.chainB
      (Some (Reference.slotsOf [Reference.signedForB])) in
  exists r db signers,
    Reference.getVerifiedWarpMessage accessibleState Reference.alice
      Reference.WarpMessengerAddress (Reference.PackGetVerifiedWarpMessage 0)
      450000 false = Returns (r, db)
    /\ err r = None
    /\ remainingGas r
       = 450000 - GetVerifiedWarpMessageGasCost
         - uint64_mul GetVerifiedWarpMessageGasCost (HammingWeight (BitsFromBytes signers)).
Proof.
  cbv zeta.
  assert (Hcall : exists r db,
             Reference.getVerifiedWarpMessage
               (Reference.stateWith Reference.chainB
                  (Some (Reference.slotsOf [Reference.signedForB])))
               Reference.alice Reference.WarpMessengerAddress
               (Reference.PackGetVerifiedWarpMessage 0) 450000 false = Returns (r, db)
             /\ err r = None).
  { eexists. eexists. split; [vm_compute; reflexivity|reflexivity]. }
  destruct Hcall as (r & db & Hcall & Herr).
  destruct (getVerifiedWarpMessage_success_inv
              Reference.rlp_DecodeBytes Reference.teleporter_ParseMessage
              Reference.ABI_UnpackInput_getVerifiedWarpMessage
              Reference.ABI_PackOutput_getVerifiedWarpMessage
              Reference.WarpMessengerAddress _ _ _ _ _ _ _ _ Hcall Herr)
    as (messageIndex & storageSlots & signedMessages & signedMessage & message
        & signers & sig & version & warpMessage & packedOutput & H).
  exists r, db, signers. split; [exact Hcall|]. split; [exact Herr|].
  apply H.
Defined.

(** On chain B the predicate accepts the payload, and a read at index 0
    selects a message that parses and is addressed to chain B. *)
Lemma getVerifiedWarpMessage_sample_after_predicate :
  let slots := Reference.slotsOf [Reference.signedForB] in
  exists signedMessages,
    Reference.rlp_DecodeBytes slots = inl signedMessages
    /\ exists signedMessage message,
         nth_error signedMessages 0 = Some signedMessage
         /\ Reference.teleporter_ParseMessage signedMessage = inl message
         /\ DestinationChainID (Unsigned message) = Reference.chainB.
Proof.
  cbv zeta.
  destruct (getVerifiedWarpMessage_after_verifyPredicate
              Reference.rlp_DecodeBytes Reference.teleporter_ParseMessage
              Reference.Signature_Verify
              Reference.ABI_UnpackInput_getVerifiedWarpMessage
              Reference.ABI_PackOutput_getVerifiedWarpMessage
              Reference.WarpMessengerAddress
              (mkPredicateContext (mkSnowContext Reference.chainB 4)
                 (Some (mkProposerVMBlockContext 10)))
              (mkProposerVMBlockContext 10)
              (Reference.slotsOf [Reference.signedForB])
              (Reference.stateWith Reference.chainB
                 (Some (Reference.slotsOf [Reference.signedForB])))
              Reference.alice Reference.WarpMessengerAddress
              (Reference.PackGetVerifiedWarpMessage 0) 450000 0
              eq_refl
              ltac:(vm_compute; discriminate)
              ltac:(vm_compute; reflexivity)
              ltac:(vm_compute; reflexivity)
              ltac:(unfold GetVerifiedWarpMessageGasCost; lia)
              ltac:(vm_compute; reflexivity))
    as (signedMessages & Hrlp & Hselect).
  exists signedMessages. split; [exact Hrlp|].
  assert (Hlen : signedMessages = [Reference.messageBytes Reference.signedForB]).
  { assert (Hsample : Reference.rlp_DecodeBytes (Reference.slotsOf [Reference.signedForB])
                      = inl [Reference.messageBytes Reference.signedForB])
      by (vm_compute; reflexivity).
    congruence. }
  destruct Hselect as (signedMessage & message & Hnth & Hparse & Hdest & _).
  - rewrite Hlen. cbn. lia.
  - lia.
  - exists signedMessage, message. auto.
Defined.

(** A message with a bit-set signature of three signers whose payload is
    no warp message: the call fails in the codec, 300,000 gas for the
    signers having been charged on top of the base cost. *)
Definition undecodable : TeleporterMessage :=
  mkTeleporterMessage
    (mkUnsignedMessage Reference.chainA Reference.chainB [x01])
    (BitSetSignature [x07] (fillArray 96 [])).

Lemma getVerifiedWarpMessage_sample_undecodable_payload :
  let accessibleState :=
    Reference.stateWith Reference.chainB (Some (Reference.slotsOf [undecodable])) in
  Reference.getVerifiedWarpMessage accessibleState Reference.alice
    Reference.WarpMessengerAddress (Reference.PackGetVerifiedWarpMessage 0)
    450000 false
  = Returns (mkCallResult None 50000
               (Some (LibraryError "codec" "insufficient length for input")),
             GetStateDB accessibleState).
Proof.
  cbv zeta. unfold Reference.getVerifiedWarpMessage.
  refine (proj1 (getVerifiedWarpMessage_late_failures_keep_the_charge
                   Reference.rlp_DecodeBytes Reference.teleporter_ParseMessage
                   Reference.ABI_UnpackInput_getVerifiedWarpMessage
                   Reference.ABI_PackOutput_getVerifiedWarpMessage
                   Reference.WarpMessengerAddress
                   _ _ _ _ 450000 0
                   (Reference.slotsOf [undecodable])
                   [Reference.messageBytes undecodable]
                   (Reference.messageBytes undecodable)
                   undecodable [x07] (fillArray 96 [])
                   _ _ _ _ _ _ _ _ _) _ _).
  - unfold GetVerifiedWarpMessageGasCost. lia.
  - vm_compute. reflexivity.
  - vm_compute. reflexivity.
  - vm_compute. reflexivity.
  - lia.
  - reflexivity.
  - vm_compute. reflexivity.
  - reflexivity.
  - vm_compute. discriminate.
  - vm_compute. reflexivity.
Defined.

(** A worker that takes transactions in the order of their numbers: it
    holds the number it expects next and the transactions issued and not
    yet confirmed. It issues a transaction only if it bears the expected
    number, and confirms one only if it is the oldest one pending; the
    receipt of number 4 never arrives. Whether a call fails depends on the
    state the worker is in. The context is never done, the allocator
    takes up to [2 ^ 45] elements in a slice, and the metrics are in
    place. *)
Definition sampleIssueTx (w : nat * list nat) (tx : nat)
    : (nat * list nat) * option error :=
  if (tx =? fst w)%nat then ((S (fst w), snd w ++ [tx]), None)
  else (w, Some (LibraryError "worker" "nonce out of order")).

Definition sampleConfirmTx (w : nat * list nat) (tx : nat)
    : (nat * list nat) * option error :=
  match snd w with
  | oldest :: rest =>
      if ((tx =? oldest) && negb (tx =? 4))%nat then ((fst w, rest), None)
      else (w, Some (LibraryError "worker" "no receipt"))
  | [] => (w, Some (LibraryError "worker" "no receipt"))
  end.

Definition sampleClose (w : nat * list nat) : (nat * list nat) * option error :=
  ((fst w, []), None).

Definition sampleMaxElems : N := 2 ^ 45.

Definition sampleMetrics : Simulator.Metrics := Simulator.mkMetrics true true.

Definition sampleExecute (n : N) (txChan : list nat) :=
  Simulator.Execute nat (nat * list nat) sampleIssueTx sampleConfirmTx sampleClose
    (fun _ => false) (LibraryError "context" "canceled") sampleMaxElems
           sampleMetrics
    n txChan (0%nat, []).

Lemma Execute_sample_good_run :
  exists s,
    sampleExecute 2 [0; 1; 2; 3]%nat = Some (Simulator.Returned None s)
    /\ Simulator.calls s
       = [ Simulator.IssueTxCall 0%nat; Simulator.IssueTxCall 1%nat;
           Simulator.ConfirmTxCall 0%nat; Simulator.ConfirmTxCall 1%nat;
           Simulator.IssueTxCall 2%nat; Simulator.IssueTxCall 3%nat;
           Simulator.ConfirmTxCall 2%nat; Simulator.ConfirmTxCall 3%nat;
           Simulator.CloseCall ]
    /\ Simulator.worker s = (4%nat, []).
Proof.
  unfold sampleExecute.
  apply (Execute_issues_and_confirms_batch_by_batch
           nat (nat * list nat) sampleIssueTx sampleConfirmTx sampleClose
           (fun _ => false) (LibraryError "context" "canceled") sampleMaxElems
           sampleMetrics
           2 [[0; 1]; [2; 3]]%nat [] (0%nat, []) (4%nat, [])).
  - intros k. reflexivity.
  - split; reflexivity.
  - reflexivity.
  - vm_compute. discriminate.
  - repeat constructor.
  - cbn. lia.
  - vm_compute. reflexivity.
Defined.

(** Number 3 is sent before number 2: after the first batch the worker
    expects 2, so in that state it refuses 3. *)
Lemma Execute_sample_issue_failure :
  exists s,
    sampleExecute 3 [0; 1; 2; 3; 5; 4]%nat
    = Some (Simulator.Returned
              (Some (Simulator.Errorf "failed to issue transaction %d: %w" 1
                       (LibraryError "worker" "nonce out of order"))) s)
    /\ Simulator.calls s
       = [ Simulator.IssueTxCall 0%nat; Simulator.IssueTxCall 1%nat;
           Simulator.IssueTxCall 2%nat;
           Simulator.ConfirmTxCall 0%nat; Simulator.ConfirmTxCall 1%nat;
           Simulator.ConfirmTxCall 2%nat;
           Simulator.IssueTxCall 3%nat; Simulator.IssueTxCall 5%nat;
           Simulator.CloseCall ]
    /\ Simulator.worker s = (4%nat, []).
Proof.
  unfold sampleExecute.
  apply (Execute_stops_at_the_first_issue_failure
           nat (nat * list nat) sampleIssueTx sampleConfirmTx sampleClose
           (fun _ => false) (LibraryError "context" "canceled") sampleMaxElems
           sampleMetrics
           3 [[0; 1; 2]]%nat [3%nat] 5%nat [4%nat]
           (LibraryError "worker" "nonce out of order")
           (0%nat, []) (4%nat, [3%nat]) (4%nat, [3%nat])).
  - intros k. reflexivity.
  - split; reflexivity.
  - reflexivity.
  - vm_compute. discriminate.
  - repeat constructor.
  - cbn. lia.
  - vm_compute. reflexivity.
  - vm_compute. reflexivity.
Defined.

(** The receipt of number 4 does not arrive: the batch 3, 4, 5 is issued
    whole, 3 is confirmed, and 5 stays pending. *)
Lemma Execute_sample_confirm_failure :
  exists s,
    sampleExecute 3 [0; 1; 2; 3; 4; 5; 6]%nat
    = Some (Simulator.Returned
              (Some (Simulator.Errorf "failed to await transaction %d: %w" 1
                       (LibraryError "worker" "no receipt"))) s)
    /\ Simulator.calls s
       = [ Simulator.IssueTxCall 0%nat; Simulator.IssueTxCall 1%nat;
           Simulator.IssueTxCall 2%nat;
           Simulator.ConfirmTxCall 0%nat; Simulator.ConfirmTxCall 1%nat;
           Simulator.ConfirmTxCall 2%nat;
           Simulator.IssueTxCall 3%nat; Simulator.IssueTxCall 4%nat;
           Simulator.IssueTxCall 5%nat;
           Simulator.ConfirmTxCall 3%nat; Simulator.ConfirmTxCall 4%nat;
           Simulator.CloseCall ]
    /\ Simulator.worker s = (6%nat, []).
Proof.
  unfold sampleExecute.
  apply (Execute_stops_at_the_first_confirm_failure
           nat (nat * list nat) sampleIssueTx sampleConfirmTx sampleClose
           (fun _ => false) (LibraryError "context" "canceled") sampleMaxElems
           sampleMetrics
           3 [[0; 1; 2]]%nat [3; 4; 5; 6]%nat [3%nat] 4%nat [5%nat]
           (LibraryError "worker" "no receipt")
           (0%nat, []) (6%nat, [4; 5]%nat) (6%nat, [4; 5]%nat)).
  - intros k. reflexivity.
  - split; reflexivity.
  - reflexivity.
  - vm_compute. discriminate.
  - repeat constructor.
  - reflexivity.
  - vm_compute. reflexivity.
  - vm_compute. reflexivity.
Defined.

Lemma Execute_sample_outstanding :
  exists o,
    sampleExecute 3 [0; 1; 2; 3; 5; 4]%nat = Some o
    /\ Simulator.peakOutstanding (Simulator.calls (Simulator.runOf o)) <= 3.
Proof.
  eexists. split; [vm_compute; reflexivity|].
  refine (Execute_keeps_at_most_n_outstanding
            nat (nat * list nat) sampleIssueTx sampleConfirmTx sampleClose
            (fun _ => false) (LibraryError "context" "canceled") sampleMaxElems
           sampleMetrics
            3 [0; 1; 2; 3; 5; 4]%nat (0%nat, []) _ _).
  vm_compute. reflexivity.
Defined.

(** A batch size that does not fit an [int]: [make] panics before any
    transaction is taken off the channel, and the deferred [Close] is the
    only call. *)
Example Execute_sample_makeslice_panic :
  sampleExecute (2 ^ 63) [0; 1; 2]%nat
  = Some (Simulator.Panicked "makeslice: cap out of range"
            (Simulator.mkRun (0%nat, []) [Simulator.CloseCall] 0)).
Proof. vm_compute. reflexivity. Qed.

(** Without metrics the first observation panics: one transaction is
    issued, and the deferred [Close] follows. *)
Example Execute_sample_nil_metrics :
  Simulator.Execute nat (nat * list nat) sampleIssueTx sampleConfirmTx sampleClose
    (fun _ => false) (LibraryError "context" "canceled") sampleMaxElems
    (Simulator.mkMetrics false false) 2 [0; 1; 2]%nat (0%nat, [])
  = Some (Simulator.Panicked Simulator.nilDereference
            (Simulator.mkRun (1%nat, [])
               [Simulator.IssueTxCall 0%nat; Simulator.CloseCall] 1)).
Proof. vm_compute. reflexivity. Qed.
